(** * generate.py: album-art extraction and playlist records

    A shallow embedding of [extract_cover] and of the record-building loop
    of [main] from [generate.py], with the theorems that relate them to the
    written specification of the artwork cache and the orchestrator.

    Conventions of the model.
    - Python text ([str]) is represented by the bytes of its UTF-8
      encoding, as a Rocq [string]; [s.encode('utf-8')] is then the list of
      the character codes of the representation.
    - Byte strings are lists of [Z] in the range 0..255.
    - [os.path] is the POSIX one: the separator is [/].
    - The console is an append-only log: [print] adds one line to it.
    - The audio files are read through mutagen's [File]; they are not
      written by the program, so [File] is a function of the path.  It
      may return [None], return an object, or raise.
    - The covers directory is a finite map from paths to contents.  The
      [with open(p, 'wb') as f: f.write(d)] block is one fallible
      operation: [open] either raises and creates nothing, or the bytes are
      stored under [p]. *)

From Stdlib Require Import ZArith List String Ascii Lia Bool.
From Stdlib Require Import DecimalString.
From stdpp Require Import base option list strings gmap sorting.
Import ListNotations.

Local Open Scope Z_scope.

(** ** hashlib.md5 (RFC 1321) *)

Module MD5.

Definition mask32 : Z := 0xffffffff.

Definition add32 (x y : Z) : Z := (x + y) mod 2 ^ 32.

Definition not32 (x : Z) : Z := Z.lxor x mask32.

Definition rotl32 (x n : Z) : Z :=
  Z.lor (Z.land (Z.shiftl x n) mask32) (Z.shiftr x (32 - n)).

Definition fF (b c d : Z) : Z := Z.lor (Z.land b c) (Z.land (not32 b) d).
Definition fG (b c d : Z) : Z := Z.lor (Z.land b d) (Z.land c (not32 d)).
Definition fH (b c d : Z) : Z := Z.lxor b (Z.lxor c d).
Definition fI (b c d : Z) : Z := Z.lxor c (Z.lor b (not32 d)).

(** Per-round left rotations. *)
Definition SHIFTS : list Z :=
  [ 7; 12; 17; 22;  7; 12; 17; 22;  7; 12; 17; 22;  7; 12; 17; 22;
    5;  9; 14; 20;  5;  9; 14; 20;  5;  9; 14; 20;  5;  9; 14; 20;
    4; 11; 16; 23;  4; 11; 16; 23;  4; 11; 16; 23;  4; 11; 16; 23;
    6; 10; 15; 21;  6; 10; 15; 21;  6; 10; 15; 21;  6; 10; 15; 21 ].

(** [K !! i = floor (2^32 * abs (sin (i + 1)))]. *)
Definition K : list Z :=
  [ 0xd76aa478; 0xe8c7b756; 0x242070db; 0xc1bdceee;
    0xf57c0faf; 0x4787c62a; 0xa8304613; 0xfd469501;
    0x698098d8; 0x8b44f7af; 0xffff5bb1; 0x895cd7be;
    0x6b901122; 0xfd987193; 0xa679438e; 0x49b40821;
    0xf61e2562; 0xc040b340; 0x265e5a51; 0xe9b6c7aa;
    0xd62f105d; 0x02441453; 0xd8a1e681; 0xe7d3fbc8;
    0x21e1cde6; 0xc33707d6; 0xf4d50d87; 0x455a14ed;
    0xa9e3e905; 0xfcefa3f8; 0x676f02d9; 0x8d2a4c8a;
    0xfffa3942; 0x8771f681; 0x6d9d6122; 0xfde5380c;
    0xa4beea44; 0x4bdecfa9; 0xf6bb4b60; 0xbebfbc70;
    0x289b7ec6; 0xeaa127fa; 0xd4ef3085; 0x04881d05;
    0xd9d4d039; 0xe6db99e5; 0x1fa27cf8; 0xc4ac5665;
    0xf4292244; 0x432aff97; 0xab9423a7; 0xfc93a039;
    0x655b59c3; 0x8f0ccc92; 0xffeff47d; 0x85845dd1;
    0x6fa87e4f; 0xfe2ce6e0; 0xa3014314; 0x4e0811a1;
    0xf7537e82; 0xbd3af235; 0x2ad7d2bb; 0xeb86d391 ].

(** Little-endian bytes of a word, and back. *)
Fixpoint le_bytes (n : nat) (w : Z) : list Z :=
  match n with
  | O => []
  | S n' => w mod 256 :: le_bytes n' (w / 256)
  end.

Fixpoint le_word (bs : list Z) : Z :=
  match bs with
  | [] => 0
  | b :: bs' => b + 256 * le_word bs'
  end.

(** Message padding: a 1 bit, zeros up to 56 mod 64, the bit length on 64
    bits. *)
Definition pad (msg : list Z) : list Z :=
  let len := Z.of_nat (length msg) in
  let zeros := Z.to_nat ((55 - len) mod 64) in
  msg ++ [0x80] ++ repeat 0 zeros ++ le_bytes 8 ((8 * len) mod 2 ^ 64).

Fixpoint chunks (fuel : nat) (n : nat) (l : list Z) : list (list Z) :=
  match fuel with
  | O => []
  | S fuel' =>
      match l with
      | [] => []
      | _ => take n l :: chunks fuel' n (drop n l)
      end
  end.

Definition words (block : list Z) : list Z :=
  map le_word (chunks 16 4 block).

Record state := State { sa : Z; sb : Z; sc : Z; sd : Z }.

Definition init : state :=
  State 0x67452301 0xefcdab89 0x98badcfe 0x10325476.

Definition round (M : list Z) (st : state) (i : nat) : state :=
  let '(State a b c d) := st in
  let iz := Z.of_nat i in
  let '(f, g) :=
    if iz <? 16 then (fF b c d, iz)
    else if iz <? 32 then (fG b c d, (5 * iz + 1) mod 16)
    else if iz <? 48 then (fH b c d, (3 * iz + 5) mod 16)
    else (fI b c d, (7 * iz) mod 16) in
  let f' := add32 (add32 (add32 f a) (nth i K 0)) (nth (Z.to_nat g) M 0) in
  State d (add32 b (rotl32 f' (nth i SHIFTS 0))) b c.

Definition compress (st : state) (block : list Z) : state :=
  let '(State a b c d) := fold_left (round (words block)) (seq 0 64) st in
  State (add32 (sa st) a) (add32 (sb st) b) (add32 (sc st) c) (add32 (sd st) d).

Definition digest (msg : list Z) : list Z :=
  let p := pad msg in
  let '(State a b c d) := fold_left compress (chunks (length p) 64 p) init in
  le_bytes 4 a ++ le_bytes 4 b ++ le_bytes 4 c ++ le_bytes 4 d.

Definition hex_digit (n : Z) : ascii :=
  nth (Z.to_nat n) (list_ascii_of_string "0123456789abcdef") "0"%char.

Fixpoint hex (bs : list Z) : string :=
  match bs with
  | [] => EmptyString
  | b :: bs' => String (hex_digit (b / 16)) (String (hex_digit (b mod 16)) (hex bs'))
  end.

Definition hexdigest (msg : list Z) : string := hex (digest msg).

End MD5.

(** [str.encode('utf-8')] on the representation. *)
Definition encode_utf8 (s : string) : list Z :=
  map (fun c => Z.of_N (N_of_ascii c)) (list_ascii_of_string s).


(** ** os.path (POSIX flavour) *)

(** [s.startswith(pre)]. *)
Fixpoint startswith (s pre : string) : bool :=
  match pre, s with
  | EmptyString, _ => true
  | String a pre', String b s' => Ascii.eqb a b && startswith s' pre'
  | String _ _, EmptyString => false
  end.

(** [needle in hay] for text: [needle] occurs somewhere in [hay]. *)
Fixpoint contains (needle hay : string) : bool :=
  startswith hay needle ||
  match hay with
  | EmptyString => false
  | String _ rest => contains needle rest
  end.

Fixpoint endswith_slash (s : string) : bool :=
  match s with
  | EmptyString => false
  | String c EmptyString => Ascii.eqb c "/"
  | String _ rest => endswith_slash rest
  end.

(** [os.path.join(a, b)]. *)
Definition join (a b : string) : string :=
  if startswith b "/" then b
  else if String.eqb a "" || endswith_slash a then a +:+ b
  else a +:+ "/" +:+ b.

(** [os.path.basename(p)]: what follows the last separator. *)
Fixpoint basename_from (acc p : string) : string :=
  match p with
  | EmptyString => acc
  | String c rest =>
      if Ascii.eqb c "/" then basename_from "" rest
      else basename_from (acc +:+ String c "") rest
  end.

Definition basename (p : string) : string := basename_from "" p.

(** ** The values mutagen hands to the program *)

Definition bytes : Type := list Z.

(** The exceptions of class [Exception] that can arise in [extract_cover],
    with the text [str(e)] gives. *)
Inductive exn : Type :=
  | OSError (msg : string)
  | MutagenError (msg : string)
  | TypeError (msg : string)
  | KeyError (msg : string)
  | IndexError (msg : string).

Definition exn_str (e : exn) : string :=
  match e with
  | OSError m | MutagenError m | TypeError m | KeyError m | IndexError m => m
  end.

Inductive result (A : Type) : Type :=
  | Val (a : A)
  | Exc (e : exn).
Arguments Val {A} a.
Arguments Exc {A} e.

(** An ID3 frame: an attached picture ([mutagen.id3.APIC], of which the
    program reads [mime] and [data]) or any other frame. *)
Inductive frame : Type :=
  | APIC (mime : string) (data : bytes)
  | OtherFrame (frame_id : string).

(** [audio.tags]: [None]; an [ID3] tag with its frames in the order
    [.values()] yields them (its keys are frame identifiers, in upper
    case, so [covr] is not among them); the atoms of an MP4 file, of which
    the program reads [covr], a list of cover payloads; or a container of
    another kind (Vorbis comments and the like), for which the program has
    no branch and which is taken to have no entry named [covr]. *)
Inductive tags : Type :=
  | NoTags
  | ID3 (values : list frame)
  | MP4Tags (covr : option (list bytes))
  | OtherTags.

(** What [File(path)] returns when it recognises the container.
    [audio_bool] is the truth value of the object ([if not audio]). *)
Record audio : Type := Audio { audio_bool : bool; audio_tags : tags }.

(** ** The environment and the state *)

(** [HAS_MUTAGEN] is the module flag set by the import; [File] is
    mutagen's [File] on the audio files; [open_wb p] is the error that
    [open(p, 'wb')] raises, if it raises. *)
Record env : Type := Env {
  HAS_MUTAGEN : bool;
  File : string -> result (option audio);
  open_wb : string -> option exn
}.

Inductive event : Type :=
  | Printed (line : string)
  | Wrote (path : string) (data : bytes).

(** The files under the covers directory, and what the run has printed
    and written so far (latest first). *)
Record world : Type := World {
  fs : gmap string bytes;
  trace : list event
}.

(** Computations that read and change the world and may raise. *)
Definition Py (A : Type) : Type := world -> result A * world.

#[export] Instance Py_ret : MRet Py := fun A a w => (Val a, w).

#[export] Instance Py_bind : MBind Py := fun A B f m w =>
  match m w with
  | (Val a, w') => f a w'
  | (Exc e, w') => (Exc e, w')
  end.

#[export] Instance Py_throw : MThrow exn Py := fun A e w => (Exc e, w).

Definition lift {A : Type} (r : result A) : Py A :=
  match r with
  | Val a => mret a
  | Exc e => mthrow e
  end.

(** [try: body  except Exception as e: handler e]. *)
Definition try_except {A : Type} (body : Py A) (handler : exn -> Py A) : Py A :=
  fun w =>
    match body w with
    | (Val a, w') => (Val a, w')
    | (Exc e, w') => handler e w'
    end.

Definition print (line : string) : Py unit :=
  fun w => (Val tt, World (fs w) (Printed line :: trace w)).

(** [os.path.exists(p)]. *)
Definition path_exists (p : string) : Py bool :=
  fun w => (Val (bool_decide (is_Some (fs w !! p))), w).

(** ** extract_cover *)

Definition COVERS_DIR : string := "covers".

(** The [for tag in audio.tags.values()] loop: the first [APIC] frame sets
    [image_data] and [ext] and breaks; without one, both keep their
    initial values. *)
Fixpoint scan_frames (values : list frame) : option bytes * string :=
  match values with
  | [] => (None, "")
  | APIC mime data :: _ =>
      (Some data, if contains "png" mime then ".png" else ".jpg")
  | OtherFrame _ :: rest => scan_frames rest
  end.

(** ['covr' in audio.tags]. *)
Definition contains_covr (t : tags) : result bool :=
  match t with
  | NoTags => Exc (TypeError "argument of type 'NoneType' is not iterable")
  | ID3 _ => Val false
  | MP4Tags covr => Val (bool_decide (is_Some covr))
  | OtherTags => Val false
  end.

(** [audio.tags['covr'][0]]. *)
Definition covr_first (t : tags) : result bytes :=
  match t with
  | MP4Tags (Some (data :: _)) => Val data
  | MP4Tags (Some []) => Exc (IndexError "list index out of range")
  | NoTags => Exc (TypeError "'NoneType' object is not subscriptable")
  | _ => Exc (KeyError "'covr'")
  end.

Definition isinstance_ID3 (t : tags) : bool :=
  match t with ID3 _ => true | _ => false end.

Definition tag_values (t : tags) : list frame :=
  match t with ID3 values => values | _ => [] end.

(** Lines 44-60: the pair [(image_data, ext)] after the two branches. *)
Definition select_image (t : tags) : result (option bytes * string) :=
  match contains_covr t with
  | Exc e => Exc e
  | Val true =>
      match covr_first t with
      | Exc e => Exc e
      | Val data => Val (Some data, ".jpg")
      end
  | Val false =>
      if isinstance_ID3 t then Val (scan_frames (tag_values t))
      else Val (None, "")
  end.

Definition file_hash (file_path : string) : string :=
  MD5.hexdigest (encode_utf8 file_path).

Section Generate.

Variable E : env.

(** [with open(cover_path, 'wb') as f: f.write(image_data)]. *)
Definition write_file (p : string) (data : bytes) : Py unit :=
  fun w =>
    match open_wb E p with
    | Some e => (Exc e, w)
    | None => (Val tt, World (<[p := data]> (fs w)) (Wrote p data :: trace w))
    end.

(** The body of the [try] block; its value is what the function returns,
    [None] standing also for reaching the final [return None].
    [if not audio] holds for [None] and for an object that is false;
    [if image_data] holds for a byte string that is not empty. *)
Definition extract_body (file_path covers_dir_path : string) : Py (option string) :=
  audio ← lift (File E file_path);
  match audio with
  | None => mret None
  | Some audio =>
      if negb (audio_bool audio) then mret None
      else
        '(image_data, ext) ← lift (select_image (audio_tags audio));
        match image_data with
        | Some ((_ :: _) as image_data) =>
            let cover_filename := file_hash file_path +:+ ext in
            let cover_path := join covers_dir_path cover_filename in
            ex ← path_exists cover_path;
            (if negb ex then write_file cover_path image_data else mret tt);;
            mret (Some (COVERS_DIR +:+ "/" +:+ cover_filename))
        | _ => mret None
        end
  end.

Definition extract_cover (file_path covers_dir_path : string) : Py (option string) :=
  if negb (HAS_MUTAGEN E) then mret None
  else
    try_except (extract_body file_path covers_dir_path)
      (fun e =>
         print ("Cover extract error (" +:+ basename file_path +:+ "): " +:+ exn_str e);;
         mret None).

(** ** The record-building loop of main *)

Record entry : Type := Entry {
  name : string;
  url : string;
  cover : option string
}.

(** Lines 126-137 of [main]:
    [for f in files: ...  playlist_data.append({...})].  The list [files]
    is the one [main] holds at that point, after the listing, the filter
    on extensions and [files.sort()] of lines 116-118. *)
Fixpoint main_loop (target_dir covers_path : string) (files : list string)
    (playlist_data : list entry) : Py (list entry) :=
  match files with
  | [] => mret playlist_data
  | f :: rest =>
      let full_path := join target_dir f in
      cover_rel_path ← extract_cover full_path covers_path;
      main_loop target_dir covers_path rest
        (playlist_data ++ [Entry f f cover_rel_path])
  end.

(** Line 111 and the loop: the value of [playlist_data] when the loop
    ends. *)
Definition main_playlist_data (target_dir : string) (files : list string) : Py (list entry) :=
  let covers_path := join target_dir COVERS_DIR in
  main_loop target_dir covers_path files [].

End Generate.

(** ** Derived notions used by the statements *)

(** [isinstance(tag, APIC)]. *)
Definition is_APIC (tag : frame) : bool :=
  match tag with APIC _ _ => true | OtherFrame _ => false end.

(** The line the [except] clause prints. *)
Definition error_line (file_path : string) (e : exn) : string :=
  "Cover extract error (" +:+ basename file_path +:+ "): " +:+ exn_str e.

(** What [extract_cover] has decided when it reaches [if image_data]:
    nothing to store, an exception on the way, or a file name and the
    bytes to store under it. *)
Inductive plan : Type :=
  | NoCover
  | Failure (e : exn)
  | Cover (cover_filename : string) (image_data : bytes).

Definition plan_of (E : env) (file_path : string) : plan :=
  if negb (HAS_MUTAGEN E) then NoCover
  else
    match File E file_path with
    | Exc e => Failure e
    | Val None => NoCover
    | Val (Some audio) =>
        if negb (audio_bool audio) then NoCover
        else
          match select_image (audio_tags audio) with
          | Exc e => Failure e
          | Val (Some ((_ :: _) as image_data), ext) =>
              Cover (file_hash file_path +:+ ext) image_data
          | Val _ => NoCover
          end
    end.

(** A lower-case hexadecimal digit. *)
Definition is_hex (c : ascii) : Prop :=
  In c (list_ascii_of_string "0123456789abcdef").

(** [str.split('/')]. *)
Fixpoint split_from (cur p : string) : list string :=
  match p with
  | EmptyString => [cur]
  | String c rest =>
      if Ascii.eqb c "/" then cur :: split_from "" rest
      else split_from (cur +:+ String c "") rest
  end.

(** The canonical spelling of a path as the specification of the cache
    key means it; the program has no such step.  It is taken to be
    [os.path.normpath]: empty and [.] components are dropped, [..]
    cancels the component before it, one or two leading slashes are
    kept. *)
Definition normpath_push (initial_slashes : nat) (new_comps : list string)
    (comp : string) : list string :=
  if String.eqb comp "" || String.eqb comp "." then new_comps
  else if negb (String.eqb comp "..")
          || (Nat.eqb initial_slashes 0 && bool_decide (new_comps = []))
          || bool_decide (last new_comps = Some "..")
       then new_comps ++ [comp]
       else removelast new_comps.

Definition normpath (path : string) : string :=
  if String.eqb path "" then "."
  else
    let initial_slashes :=
      if startswith path "/" then
        if startswith path "//" && negb (startswith path "///") then 2%nat else 1%nat
      else 0%nat in
    let comps := fold_left (normpath_push initial_slashes) (split_from "" path) [] in
    let path := String.concat "/" comps in
    let path := String.concat "" (repeat "/" initial_slashes) +:+ path in
    if String.eqb path "" then "." else path.

(** [s.endswith(suffix)]. *)
Definition endswith (s suffix : string) : bool :=
  String.eqb
    (String.substring (String.length s - String.length suffix) (String.length suffix) s)
    suffix
  && (String.length suffix <=? String.length s)%nat.

(** The rule of the specification for ID3 pictures, in its words:
    [image/png] gives PNG, anything else JPEG. *)
Definition ext_of_mime_spec (mime : string) : string :=
  if String.eqb mime "image/png" then ".png" else ".jpg".

(** The cache writes recorded in a trace. *)
Definition writes (tr : list event) : list (string * bytes) :=
  omap (fun ev => match ev with Wrote p d => Some (p, d) | Printed _ => None end) tr.

(** ** A small music folder *)

Module Sample.

Definition jpeg_B : bytes := [0xff; 0xd8; 0xff; 0xe0; 0x00; 0x10].
Definition png_B : bytes := [0x89; 0x50; 0x4e; 0x47; 0x0d; 0x0a; 0x1a; 0x0a].

(** What mutagen finds in the folder [music]. *)
Definition library (p : string) : result (option audio) :=
  if String.eqb p "music/a.mp3" then
    Val (Some (Audio true
      (ID3 [OtherFrame "TIT2"; APIC "image/jpeg" jpeg_B; APIC "image/png" png_B])))
  else if String.eqb p "music/single.mp3" then
    Val (Some (Audio true (ID3 [APIC "image/jpeg" jpeg_B])))
  else if String.eqb p "music/xpng.mp3" then
    Val (Some (Audio true (ID3 [APIC "image/x-png" png_B])))
  else if String.eqb p "music/song.m4a" then
    Val (Some (Audio true (MP4Tags (Some [png_B]))))
  else if String.eqb p "music/bad.mp3" then
    Exc (MutagenError "can't sync to MPEG frame")
  else if String.eqb p "music/untagged.mp3" then
    Val (Some (Audio false NoTags))
  else Val None.

Definition E : env := Env true library (fun _ => None).

(** The same folder on a volume where nothing can be created. *)
Definition E_readonly : env :=
  Env true library (fun _ => Some (OSError "[Errno 30] Read-only file system")).

Definition empty_world : world := World ∅ [].


End Sample.

(** ** The directory scanner of main *)

(** [c.lower()] on one character of the representation: the letters [A]
    to [Z] go to [a] to [z].  The program uses [f.lower()] only under
    [endswith] with the five extensions below; no character outside ASCII
    lowers to a text that contains a character of these extensions, so
    on the UTF-8 bytes this map decides the same test. *)
Definition lower_char (c : ascii) : ascii :=
  let n := N_of_ascii c in
  if (65 <=? n)%N && (n <=? 90)%N then ascii_of_N (n + 32) else c.

Fixpoint lower (s : string) : string :=
  match s with
  | EmptyString => EmptyString
  | String c rest => String (lower_char c) (lower rest)
  end.

Definition supported_extensions : list string :=
  [".m4a"; ".mp3"; ".aac"; ".ogg"; ".wav"].

(** The condition of the list comprehension of line 117:
    [f.lower().endswith(supported_extensions) and not f.startswith('.')]. *)
Definition is_audio_name (f : string) : bool :=
  existsb (endswith (lower f)) supported_extensions && negb (startswith f ".").

(** Lines 116-118: the names [os.listdir] returned, filtered, then
    [files.sort()].  Text is compared code point by code point, which on
    the UTF-8 bytes is the byte-wise order [String.le]. *)
Definition scan (listing : list string) : list string :=
  merge_sort String.le (filter (fun f => is_audio_name f = true) listing).

(** ** json.dumps *)

Definition dquote : ascii := "034"%char.
Definition newline : ascii := "010"%char.

(** The values [main] serialises: [None], text, lists, and dictionaries
    with their items in insertion order. *)
#[local] Set Warnings "-register-all".
Inductive json : Type :=
  | JNull
  | JString (s : string)
  | JArray (items : list json)
  | JObject (items : list (string * json)).

(** One character of a string literal, with [ensure_ascii=False]: the
    quote, the backslash and the control characters below 0x20 are
    escaped, every other character stands for itself. *)
Definition escape_char (c : ascii) : string :=
  let n := N_of_ascii c in
  if (n =? 34)%N then String "\" (String dquote "")
  else if (n =? 92)%N then "\\"
  else if (n =? 10)%N then "\n"
  else if (n =? 13)%N then "\r"
  else if (n =? 9)%N then "\t"
  else if (n =? 12)%N then "\f"
  else if (n =? 8)%N then "\b"
  else if (n <? 32)%N then
    "\u00" +:+ String (MD5.hex_digit (Z.of_N n / 16))
                (String (MD5.hex_digit (Z.of_N n mod 16)) "")
  else String c "".

Fixpoint escape (s : string) : string :=
  match s with
  | EmptyString => EmptyString
  | String c rest => escape_char c +:+ escape rest
  end.

(** [json.encoder.encode_basestring]. *)
Definition encode_basestring (s : string) : string :=
  String dquote (escape s +:+ String dquote "").

(** A line break and the indentation of a nesting level, for [indent=2]. *)
Definition newline_indent (level : nat) : string :=
  String newline (String.concat "" (repeat "  " level)).

(** [json.dumps(obj, ensure_ascii=False, indent=2)] at a nesting level:
    items one per line, separated by a comma, keys followed by a colon
    and a space; an empty list is [[]], an empty dictionary [{}]. *)
Fixpoint dumps (level : nat) (j : json) : string :=
  match j with
  | JNull => "null"
  | JString s => encode_basestring s
  | JArray items =>
      match items with
      | [] => "[]"
      | _ :: _ =>
          "[" +:+ newline_indent (S level)
          +:+ String.concat ("," +:+ newline_indent (S level))
                (map (dumps (S level)) items)
          +:+ newline_indent level +:+ "]"
      end
  | JObject items =>
      match items with
      | [] => "{}"
      | _ :: _ =>
          "{" +:+ newline_indent (S level)
          +:+ String.concat ("," +:+ newline_indent (S level))
                (map (fun kv => encode_basestring (fst kv) +:+ ": "
                                +:+ dumps (S level) (snd kv)) items)
          +:+ newline_indent level +:+ "}"
      end
  end.

(** The dictionary of lines 133-137, and the list of them. *)
Definition json_of_entry (e : entry) : json :=
  JObject [("name", JString (name e));
           ("url", JString (url e));
           ("cover", match cover e with Some c => JString c | None => JNull end)].

Definition json_of_playlist (playlist_data : list entry) : json :=
  JArray (map json_of_entry playlist_data).

(** Line 141: the text of [playlist.js]. *)
Definition js_content (playlist_data : list entry) : string :=
  "const LOCAL_FILES = " +:+ dumps 0 (json_of_playlist playlist_data) +:+ ";".

(** ** main *)

(** What [main] meets outside the covers cache: the folder of the script,
    [os.listdir], and the errors that [os.makedirs], [open(p, 'w')] and
    [shutil.copy2] raise, if they raise. *)
Record host : Type := Host {
  script_dir : string;
  listdir : string -> result (list string);
  makedirs_err : string -> option exn;
  open_w_err : string -> option exn;
  copy2_err : string -> string -> option exn
}.

(** The disk as [main] sees it: the regular files with what was printed
    and written (a [world]), and the directories. *)
Record machine : Type := Machine {
  disk : world;
  dirs : gset string
}.

Definition Sh (A : Type) : Type := machine -> result A * machine.

#[export] Instance Sh_ret : MRet Sh := fun A a m => (Val a, m).

#[export] Instance Sh_bind : MBind Sh := fun A B f c m =>
  match c m with
  | (Val a, m') => f a m'
  | (Exc e, m') => (Exc e, m')
  end.

(** A computation on the files, run on the disk of the machine. *)
Definition on_disk {A : Type} (c : Py A) : Sh A :=
  fun m =>
    let '(r, w) := c (disk m) in (r, Machine w (dirs m)).

Definition sh_lift {A : Type} (r : result A) : Sh A :=
  fun m => (r, m).

Definition sh_try {A : Type} (body : Sh A) (handler : exn -> Sh A) : Sh A :=
  fun m =>
    match body m with
    | (Val a, m') => (Val a, m')
    | (Exc e, m') => handler e m'
    end.

(** [os.path.exists(p)] and [os.path.isdir(p)]. *)
Definition sh_exists (p : string) : Sh bool :=
  fun m => (Val (bool_decide (is_Some (fs (disk m) !! p)) || bool_decide (p ∈ dirs m)), m).

Definition sh_isdir (p : string) : Sh bool :=
  fun m => (Val (bool_decide (p ∈ dirs m)), m).

(** [str(n)] for a length. *)
Definition str_nat (n : nat) : string :=
  NilEmpty.string_of_uint (Nat.to_uint n).

Section Main.

Variable E : env.
Variable H : host.

(** [os.makedirs(p)]. *)
Definition sh_makedirs (p : string) : Sh unit :=
  fun m =>
    match makedirs_err H p with
    | Some e => (Exc e, m)
    | None => (Val tt, Machine (disk m) ({[ p ]} ∪ dirs m))
    end.

(** [with open(p, 'w', encoding='utf-8') as f: f.write(text)]. *)
Definition write_text (p text : string) : Sh unit :=
  fun m =>
    match open_w_err H p with
    | Some e => (Exc e, m)
    | None =>
        (Val tt,
         Machine (World (<[p := encode_utf8 text]> (fs (disk m)))
                        (Wrote p (encode_utf8 text) :: trace (disk m)))
                 (dirs m))
    end.

(** [shutil.copy2(src, dst)]: into [dst], or under the name of [src]
    inside [dst] when [dst] is a directory; a [src] that is not a regular
    file cannot be copied. *)
Definition sh_copy2 (src dst : string) : Sh unit :=
  fun m =>
    match copy2_err H src dst with
    | Some e => (Exc e, m)
    | None =>
        match fs (disk m) !! src with
        | None => (Exc (OSError ("[Errno 21] Is a directory: '" +:+ src +:+ "'")), m)
        | Some content =>
            let dst := if bool_decide (dst ∈ dirs m) then join dst (basename src) else dst in
            (Val tt,
             Machine (World (<[dst := content]> (fs (disk m)))
                            (Wrote dst content :: trace (disk m)))
                     (dirs m))
        end
    end.

Definition say (line : string) : Sh unit := on_disk (print line).

(** [main], for a command line that names the folder: [target_dir] is
    [args.folder], not empty, so the prompt of lines 103-104 does not
    run.  [args.port] and [args.no_server] are parsed and never read.
    An exception that [main] does not catch ends the run with it. *)
Definition main (target_dir : string) : Sh unit :=
  (if negb (HAS_MUTAGEN E) then
     say "警告: 'mutagen' ライブラリが見つかりません。";;
     say "画像を抽出するには 'pip install mutagen' を実行してください。";;
     say "※ 画像なしモードで続行します..."
   else mret tt);;
  let template_path := join (script_dir H) "player_template.html" in
  template_found ← sh_exists template_path;
  if negb template_found then
    say "エラー: player_template.html が見つかりません。"
  else
    target_found ← sh_isdir target_dir;
    if negb target_found then
      say ("エラー: ディレクトリが見つかりません: " +:+ target_dir)
    else
      let covers_path := join target_dir COVERS_DIR in
      covers_found ← sh_exists covers_path;
      (if HAS_MUTAGEN E && negb covers_found then sh_makedirs covers_path
       else mret tt);;
      listing ← sh_lift (listdir H target_dir);
      let files := scan listing in
      say ("対象フォルダ: " +:+ target_dir);;
      say ("検出ファイル: " +:+ str_nat (length files) +:+ " 曲");;
      (if HAS_MUTAGEN E then
         say ("アートワーク抽出中... (保存先: " +:+ COVERS_DIR +:+ "/)")
       else mret tt);;
      playlist_data ← on_disk (main_playlist_data E target_dir files);
      let js_dest_path := join target_dir "playlist.js" in
      written ← sh_try (write_text js_dest_path (js_content playlist_data);; mret true)
                  (fun e => say ("エラー (playlist.js): " +:+ exn_str e);; mret false);
      if negb written then mret tt
      else
        let html_dest_path := join target_dir "index.html" in
        sh_try (sh_copy2 template_path html_dest_path;; say "✔ 生成完了")
          (fun e => say ("エラー (index.html): " +:+ exn_str e)).

End Main.

(** The world after one more printed line; after the three warning lines
    of a run without mutagen; after the three lines that announce the
    scan. *)
Definition put (line : string) (w : world) : world :=
  World (fs w) (Printed line :: trace w).

Definition warned (E : env) (w : world) : world :=
  if negb (HAS_MUTAGEN E) then
    put "※ 画像なしモードで続行します..."
      (put "画像を抽出するには 'pip install mutagen' を実行してください。"
         (put "警告: 'mutagen' ライブラリが見つかりません。" w))
  else w.

Definition announced (E : env) (target_dir : string) (files : list string)
    (w : world) : world :=
  let w := put ("検出ファイル: " +:+ str_nat (length files) +:+ " 曲")
             (put ("対象フォルダ: " +:+ target_dir) w) in
  if HAS_MUTAGEN E
  then put ("アートワーク抽出中... (保存先: " +:+ COVERS_DIR +:+ "/)") w
  else w.

(** ** Reading playlist.js back *)

(** A reader for the text [js_content] produces, as a script engine
    reads it: the literals in order, string literals with their escapes
    undone.  It is the reference against which the writer is checked;
    the program has no reader of its own. *)
Fixpoint strip_prefix (lit s : string) : option string :=
  match lit with
  | EmptyString => Some s
  | String a lit' =>
      match s with
      | String b s' => if Ascii.eqb a b then strip_prefix lit' s' else None
      | EmptyString => None
      end
  end.

Fixpoint strip_all (lits : list string) (s : string) : option string :=
  match lits with
  | [] => Some s
  | lit :: lits' =>
      match strip_prefix lit s with
      | Some s' => strip_all lits' s'
      | None => None
      end
  end.

Definition hex_value (c : ascii) : option N :=
  let n := N_of_ascii c in
  if (48 <=? n)%N && (n <=? 57)%N then Some (n - 48)%N
  else if (97 <=? n)%N && (n <=? 102)%N then Some (n - 87)%N
  else if (65 <=? n)%N && (n <=? 70)%N then Some (n - 55)%N
  else None.

(** The character a two-character escape stands for. *)
Definition unescape_char (e : ascii) : option ascii :=
  let n := N_of_ascii e in
  if (n =? 34)%N then Some dquote
  else if (n =? 92)%N then Some "\"%char
  else if (n =? 47)%N then Some "/"%char
  else if (n =? 110)%N then Some newline
  else if (n =? 114)%N then Some "013"%char
  else if (n =? 116)%N then Some "009"%char
  else if (n =? 102)%N then Some "012"%char
  else if (n =? 98)%N then Some "008"%char
  else None.

Definition cons_fst (c : ascii) (r : option (string * string)) : option (string * string) :=
  match r with
  | Some (t, rest) => Some (String c t, rest)
  | None => None
  end.

(** The characters of a string literal after its opening quote, up to the
    closing quote; what follows the literal is returned with them. *)
Fixpoint read_chars (s : string) : option (string * string) :=
  match s with
  | EmptyString => None
  | String c rest =>
      if (N_of_ascii c =? 34)%N then Some (EmptyString, rest)
      else if (N_of_ascii c =? 92)%N then
        match rest with
        | String e rest1 =>
            if (N_of_ascii e =? 117)%N then
              match rest1 with
              | String h1 (String h2 (String h3 (String h4 rest2))) =>
                  match hex_value h1, hex_value h2, hex_value h3, hex_value h4 with
                  | Some 0%N, Some 0%N, Some a, Some b =>
                      if (16 * a + b <? 128)%N
                      then cons_fst (ascii_of_N (16 * a + b)) (read_chars rest2)
                      else None
                  | _, _, _, _ => None
                  end
              | _ => None
              end
            else
              match unescape_char e with
              | Some c' => cons_fst c' (read_chars rest1)
              | None => None
              end
        | EmptyString => None
        end
      else if (N_of_ascii c <? 32)%N then None
      else cons_fst c (read_chars rest)
  end.

Definition read_string (s : string) : option (string * string) :=
  match s with
  | String c rest => if (N_of_ascii c =? 34)%N then read_chars rest else None
  | EmptyString => None
  end.

(** [null] or a string literal. *)
Definition read_cover (s : string) : option (option string * string) :=
  match strip_prefix "null" s with
  | Some rest => Some (None, rest)
  | None =>
      match read_string s with
      | Some (t, rest) => Some (Some t, rest)
      | None => None
      end
  end.

(** One dictionary of the list, at nesting level 1. *)
Definition read_entry (s : string) : option (entry * string) :=
  s ← strip_all ["{"; newline_indent 2; encode_basestring "name"; ": "] s;
  '(n, s) ← read_string s;
  s ← strip_all [","; newline_indent 2; encode_basestring "url"; ": "] s;
  '(u, s) ← read_string s;
  s ← strip_all [","; newline_indent 2; encode_basestring "cover"; ": "] s;
  '(c, s) ← read_cover s;
  s ← strip_all [newline_indent 1; "}"] s;
  Some (Entry n u c, s).

Fixpoint read_entries (fuel : nat) (s : string) : option (list entry * string) :=
  match fuel with
  | O => None
  | S fuel' =>
      '(e, s) ← read_entry s;
      match strip_all [","; newline_indent 1] s with
      | Some s' =>
          '(es, rest) ← read_entries fuel' s';
          Some (e :: es, rest)
      | None =>
          rest ← strip_all [newline_indent 0; "]"] s;
          Some ([e], rest)
      end
  end.

Definition read_manifest (text : string) : option (list entry) :=
  s ← strip_prefix "const LOCAL_FILES = " text;
  match strip_prefix "[]" s with
  | Some rest => if String.eqb rest ";" then Some [] else None
  | None =>
      s ← strip_all ["["; newline_indent 1] s;
      '(es, rest) ← read_entries (String.length text) s;
      if String.eqb rest ";" then Some es else None
  end.

(** The text of a file from its bytes: the inverse of [encode_utf8] on
    the representation. *)
Definition decode_utf8 (bs : list Z) : string :=
  string_of_list_ascii (map (fun b => ascii_of_N (Z.to_N b)) bs).

(** A host for the sample folder: the script lives in [/opt/player], next
    to its template; the folder [music] lists five entries. *)
Module SampleHost.

Definition template : bytes := encode_utf8 "<html>player</html>".

Definition host0 : host :=
  Host "/opt/player"
    (fun p => if String.eqb p "music"
              then Val ["song.m4a"; "notes.txt"; ".hidden.mp3"; "bad.mp3"; "a.mp3"]
              else Exc (OSError "[Errno 2] No such file or directory"))
    (fun _ => None) (fun _ => None) (fun _ _ => None).


(** A host on which [playlist.js] cannot be opened for writing. *)
Definition host_no_manifest : host :=
  Host "/opt/player" (listdir host0) (fun _ => None)
    (fun _ => Some (OSError "[Errno 13] Permission denied")) (fun _ _ => None).

Definition machine0 : machine :=
  Machine (World {[ "/opt/player/player_template.html" := template ]} [])
          {[ "music" ]}.

End SampleHost.

(** ** The model on concrete inputs *)

(** The test suite of RFC 1321, appendix A.5. *)
Example md5_empty : MD5.hexdigest (encode_utf8 "") = "d41d8cd98f00b204e9800998ecf8427e".
Proof. vm_compute. reflexivity. Qed.

Example md5_abc : MD5.hexdigest (encode_utf8 "abc") = "900150983cd24fb0d6963f7d28e17f72".
Proof. vm_compute. reflexivity. Qed.

Example md5_message_digest :
  MD5.hexdigest (encode_utf8 "message digest") = "f96b697d7cb7938d525a2f31aaf161d0".
Proof. vm_compute. reflexivity. Qed.

Example md5_digits :
  MD5.hexdigest (encode_utf8
    "12345678901234567890123456789012345678901234567890123456789012345678901234567890")
  = "57edf4a22be3c955ac49da2e2107b67a".
Proof. vm_compute. reflexivity. Qed.

Example join_examples :
  join "music" "a.mp3" = "music/a.mp3" ∧ join "music/" "a.mp3" = "music/a.mp3" ∧
  join "" "a.mp3" = "a.mp3" ∧ join "music" "/tmp/a.mp3" = "/tmp/a.mp3".
Proof. repeat split; reflexivity. Qed.

Example basename_examples :
  basename "music/sub/a.mp3" = "a.mp3" ∧ basename "a.mp3" = "a.mp3" ∧
  basename "music/" = "".
Proof. repeat split; reflexivity. Qed.

(** A run over the sample folder: the records, the covers directory and
    the console afterwards. *)
Example sample_run :
  main_playlist_data Sample.E "music"
    ["a.mp3"; "bad.mp3"; "song.m4a"; "untagged.mp3"; "z.wav"] Sample.empty_world
  = (Val [Entry "a.mp3" "a.mp3" (Some "covers/c350ae3922f87222fe62773e8e4f1925.jpg");
          Entry "bad.mp3" "bad.mp3" None;
          Entry "song.m4a" "song.m4a" (Some "covers/f3e94838311eaf70d965af34f85cee04.jpg");
          Entry "untagged.mp3" "untagged.mp3" None;
          Entry "z.wav" "z.wav" None],
     World
       (<["music/covers/f3e94838311eaf70d965af34f85cee04.jpg" := Sample.png_B]>
          (<["music/covers/c350ae3922f87222fe62773e8e4f1925.jpg" := Sample.jpeg_B]> ∅))
       [Wrote "music/covers/f3e94838311eaf70d965af34f85cee04.jpg" Sample.png_B;
        Printed "Cover extract error (bad.mp3): can't sync to MPEG frame";
        Wrote "music/covers/c350ae3922f87222fe62773e8e4f1925.jpg" Sample.jpeg_B]).
Proof. vm_compute. reflexivity. Qed.

(** The same file on a volume where the cache file cannot be created:
    no cover, one line on the console, nothing written. *)
Example sample_cache_write_failure :
  extract_cover Sample.E_readonly "music/a.mp3" "music/covers" Sample.empty_world
  = (Val None,
     World ∅ [Printed "Cover extract error (a.mp3): [Errno 30] Read-only file system"]).
Proof. vm_compute. reflexivity. Qed.

Section Facts.
Context (E : env).

Lemma extract_cover_cases file_path c w :
  extract_cover E file_path c w =
    match plan_of E file_path with
    | NoCover => (Val None, w)
    | Failure e =>
        (Val None, World (fs w) (Printed (error_line file_path e) :: trace w))
    | Cover fn data =>
        let cp := join c fn in
        if bool_decide (is_Some (fs w !! cp)) then (Val (Some (COVERS_DIR +:+ "/" +:+ fn)), w)
        else
          match open_wb E cp with
          | Some e =>
              (Val None, World (fs w) (Printed (error_line file_path e) :: trace w))
          | None =>
              (Val (Some (COVERS_DIR +:+ "/" +:+ fn)),
               World (<[cp := data]> (fs w)) (Wrote cp data :: trace w))
          end
    end.
Proof.
  unfold extract_cover, plan_of.
  destruct (HAS_MUTAGEN E); simpl; [|done].
  unfold try_except, extract_body, mbind, Py_bind, lift.
  destruct (File E file_path) as [[a|]|e]; simpl; try done.
  destruct (audio_bool a); simpl; [|done].
  destruct (select_image (audio_tags a)) as [[[[|b bs]|] ext]|e]; simpl; try done.
  unfold path_exists, write_file.
  destruct (bool_decide _); simpl; [done|].
  destruct (open_wb E _); simpl; done.
Qed.

Lemma extract_cover_val file_path c w :
  ∃ r w', extract_cover E file_path c w = (Val r, w').
Proof.
  rewrite extract_cover_cases.
  destruct (plan_of E file_path); simpl; eauto.
  destruct (bool_decide _); eauto.
  destruct (open_wb E _); eauto.
Qed.

(** Old cache entries are kept as they are. *)
Lemma extract_cover_keeps file_path c w r w' k v :
  extract_cover E file_path c w = (Val r, w') →
  fs w !! k = Some v → fs w' !! k = Some v.
Proof.
  rewrite extract_cover_cases.
  destruct (plan_of E file_path) as [|e|fn data]; simpl;
    try (intros; simplify_eq; done; fail).
  case_bool_decide as Hex; [intros; simplify_eq; done|].
  destruct (open_wb E _); intros ? Hk; simplify_eq; simpl; [done|].
  rewrite lookup_insert_ne; [done|].
  intros <-. apply Hex. eauto.
Qed.




(** *** The loop *)

Lemma main_loop_acc t c files : ∀ acc w,
  main_loop E t c files acc w =
    match main_loop E t c files [] w with
    | (Val r, w') => (Val (acc ++ r), w')
    | (Exc e, w') => (Exc e, w')
    end.
Proof.
  induction files as [|f rest IH]; intros acc w; simpl.
  - unfold mret, Py_ret. by rewrite app_nil_r.
  - unfold mbind, Py_bind.
    destruct (extract_cover E (join t f) c w) as [[cv|e] w1]; [|done].
    rewrite (IH (acc ++ _)), (IH [_]).
    destruct (main_loop E t c rest [] w1) as [[r|e] w']; [|done].
    by rewrite <- app_assoc.
Qed.

Lemma main_loop_cons t c f rest w :
  main_loop E t c (f :: rest) [] w =
    match extract_cover E (join t f) c w with
    | (Val cv, w1) =>
        match main_loop E t c rest [] w1 with
        | (Val r, w') => (Val (Entry f f cv :: r), w')
        | (Exc e, w') => (Exc e, w')
        end
    | (Exc e, w1) => (Exc e, w1)
    end.
Proof.
  simpl. unfold mbind, Py_bind.
  destruct (extract_cover E (join t f) c w) as [[cv|e] w1]; [|done].
  by rewrite main_loop_acc.
Qed.

Lemma main_loop_val t c files : ∀ w,
  ∃ r w', main_loop E t c files [] w = (Val r, w').
Proof.
  induction files as [|f rest IH]; intros w.
  - simpl. unfold mret, Py_ret. eauto.
  - rewrite main_loop_cons.
    destruct (extract_cover_val (join t f) c w) as (cv & w1 & ->).
    destruct (IH w1) as (r & w' & ->). eauto.
Qed.

Lemma main_loop_app t c l1 l2 w r1 w1 :
  main_loop E t c l1 [] w = (Val r1, w1) →
  main_loop E t c (l1 ++ l2) [] w =
    match main_loop E t c l2 [] w1 with
    | (Val r2, w') => (Val (r1 ++ r2), w')
    | (Exc e, w') => (Exc e, w')
    end.
Proof.
  revert w r1. induction l1 as [|f rest IH]; intros w r1; simpl app.
  - simpl. unfold mret, Py_ret. intros; simplify_eq.
    by destruct (main_loop E t c l2 [] w1) as [[]].
  - rewrite !main_loop_cons.
    destruct (extract_cover E (join t f) c w) as [[cv|e] wa]; [|done].
    destruct (main_loop E t c rest [] wa) as [[r|e] wb] eqn:Hrest; [|done].
    intros; simplify_eq. rewrite (IH _ _ Hrest).
    by destruct (main_loop E t c l2 [] w1) as [[]].
Qed.

Lemma main_loop_names t c files : ∀ w r w',
  main_loop E t c files [] w = (Val r, w') →
  Forall2 (λ f e, name e = f ∧ url e = f) files r.
Proof.
  induction files as [|f rest IH]; intros w r w'.
  - simpl. unfold mret, Py_ret. intros; simplify_eq. constructor.
  - rewrite main_loop_cons.
    destruct (extract_cover E (join t f) c w) as [[cv|e] w1]; [|done].
    destruct (main_loop E t c rest [] w1) as [[r0|e] wb] eqn:Hrest; [|done].
    intros; simplify_eq. constructor; eauto.
Qed.





End Facts.

(** ** Text and digest facts *)

Lemma startswith_nil s : startswith s "" = true.
Proof. by destruct s. Qed.

Lemma startswith_cons a pre b s :
  startswith (String b s) (String a pre) = Ascii.eqb a b && startswith s pre.
Proof. reflexivity. Qed.

Lemma contains_slash_cons c rest :
  contains "/" (String c rest) = Ascii.eqb c "/" || contains "/" rest.
Proof.
  simpl. by rewrite startswith_nil, andb_true_r, Ascii.eqb_sym.
Qed.

Lemma append_cons c (s t : string) : String c s +:+ t = String c (s +:+ t).
Proof. reflexivity. Qed.

Lemma append_nil_l (s : string) : "" +:+ s = s.
Proof. reflexivity. Qed.

Lemma append_nil_r (s : string) : s +:+ "" = s.
Proof. induction s as [|c s IH]; [done|]. by rewrite append_cons, IH. Qed.

Lemma append_assoc (a b c : string) : (a +:+ b) +:+ c = a +:+ b +:+ c.
Proof. induction a as [|x a IH]; [done|]. by rewrite !append_cons, IH. Qed.

Lemma basename_from_no_slash f : ∀ acc,
  contains "/" f = false → basename_from acc f = acc +:+ f.
Proof.
  induction f as [|c rest IH]; intros acc.
  - intros _. simpl. by rewrite append_nil_r.
  - rewrite contains_slash_cons. intros [Hc Hrest]%orb_false_iff.
    simpl. rewrite Hc, IH by done. by rewrite append_assoc.
Qed.

Lemma basename_from_slash a f : ∀ acc,
  basename_from acc (a +:+ "/" +:+ f) = basename f.
Proof.
  induction a as [|c rest IH]; intros acc; [done|].
  rewrite append_cons. simpl. destruct (Ascii.eqb c "/"); apply IH.
Qed.

Lemma basename_no_slash f : contains "/" f = false → basename f = f.
Proof. apply (basename_from_no_slash f ""). Qed.

Lemma endswith_slash_inv a :
  endswith_slash a = true → ∃ a', a = a' +:+ "/".
Proof.
  induction a as [|c rest IH]; [done|]. simpl.
  destruct rest as [|c' rest'].
  - intros ->%Ascii.eqb_eq. by exists "".
  - intros (a' & ->)%IH. by exists (String c a').
Qed.

(** The name [basename] extracts from [join d f] is [f], for a file name
    without separator (as [os.listdir] returns them). *)
Lemma basename_join d f :
  contains "/" f = false → basename (join d f) = f.
Proof.
  intros Hf. unfold join.
  assert (startswith f "/" = false) as ->.
  { destruct f as [|c rest]; [done|]. rewrite contains_slash_cons in Hf.
    apply orb_false_iff in Hf as [Hc _].
    by rewrite startswith_cons, Ascii.eqb_sym, Hc. }
  destruct (String.eqb_spec d "") as [->|_]; simpl.
  { by apply basename_no_slash. }
  destruct (endswith_slash d) eqn:Hd.
  - apply endswith_slash_inv in Hd as (d' & ->).
    rewrite append_assoc. unfold basename at 1.
    rewrite basename_from_slash. by apply basename_no_slash.
  - unfold basename at 1.
    rewrite basename_from_slash. by apply basename_no_slash.
Qed.

(** [contains] decides the occurrence of the needle. *)
Lemma startswith_app needle hay :
  startswith hay needle = true ↔ ∃ post, hay = needle +:+ post.
Proof.
  revert hay. induction needle as [|c n IH]; intros hay.
  - rewrite startswith_nil. split; [by exists hay|done].
  - destruct hay as [|c' h].
    + split; [done|]. by intros [? ?].
    + rewrite startswith_cons, andb_true_iff, Ascii.eqb_eq, IH. split.
      * intros [<- [post ->]]. by exists post.
      * intros [post Hp]. rewrite append_cons in Hp. simplify_eq. eauto.
Qed.

Lemma contains_cons needle c h :
  contains needle (String c h) = startswith (String c h) needle || contains needle h.
Proof. reflexivity. Qed.

Lemma contains_spec needle hay :
  contains needle hay = true ↔ ∃ pre post, hay = pre +:+ needle +:+ post.
Proof.
  induction hay as [|c h IH].
  - change (contains needle "") with (startswith "" needle || false).
    rewrite orb_false_r, startswith_app. split.
    + intros [post ->]. by exists "", post.
    + intros (pre & post & Heq). destruct pre; [by exists post|done].
  - rewrite contains_cons, orb_true_iff, startswith_app, IH. split.
    + intros [[post ->]|(pre & post & ->)].
      * by exists "", post.
      * by exists (String c pre), post.
    + intros (pre & post & Heq). destruct pre as [|c' pre].
      * left. by exists post.
      * right. exists pre, post. rewrite append_cons in Heq. congruence.
Qed.

Lemma hex_length bs : String.length (MD5.hex bs) = (2 * length bs)%nat.
Proof. induction bs as [|b bs IH]; simpl; [done|]. rewrite IH. lia. Qed.

Lemma digest_length msg : length (MD5.digest msg) = 16%nat.
Proof.
  unfold MD5.digest.
  by destruct (fold_left MD5.compress _ MD5.init).
Qed.

Lemma le_bytes_range n : ∀ w, Forall (λ b, 0 ≤ b < 256) (MD5.le_bytes n w).
Proof.
  induction n as [|n IH]; intros w; simpl; constructor; [|apply IH].
  apply Z.mod_pos_bound. lia.
Qed.

Lemma digest_range msg : Forall (λ b, 0 ≤ b < 256) (MD5.digest msg).
Proof.
  unfold MD5.digest.
  destruct (fold_left MD5.compress _ MD5.init).
  rewrite !Forall_app. auto using le_bytes_range.
Qed.

Lemma hex_digit_is_hex n : 0 ≤ n < 16 → is_hex (MD5.hex_digit n).
Proof.
  intros Hn. unfold is_hex, MD5.hex_digit.
  apply nth_In. simpl. lia.
Qed.

Lemma hex_is_hex bs :
  Forall (λ b, 0 ≤ b < 256) bs → Forall is_hex (list_ascii_of_string (MD5.hex bs)).
Proof.
  induction 1 as [|b bs Hb _ IH]; simpl; [constructor|].
  constructor; [|constructor; [|done]]; apply hex_digit_is_hex.
  - split; [apply Z.div_pos; lia|apply Z.div_lt_upper_bound; lia].
  - apply Z.mod_pos_bound. lia.
Qed.

Lemma file_hash_length p : String.length (file_hash p) = 32%nat.
Proof. unfold file_hash, MD5.hexdigest. by rewrite hex_length, digest_length. Qed.

Lemma file_hash_hex p : Forall is_hex (list_ascii_of_string (file_hash p)).
Proof. apply hex_is_hex, digest_range. Qed.

(** ** Failures inside the [try] block *)

Section Failures.
Context (E : env).





Lemma main_loop_length t c files w r w' :
  main_loop E t c files [] w = (Val r, w') → length r = length files.
Proof. intros H%main_loop_names. symmetry. by eapply Forall2_length. Qed.

End Failures.

(** ** The orchestrator: order, names, failures *)

(** C7.  For every ordered list of files handed to the loop of [main],
    the list of records has the same length and the same order: the
    names of the records, read in order, are the input list, and the
    record at position [i] is the one built from the file at position
    [i], in the state the first [i] files have left.  Nothing is sorted
    here: [b.mp3] before [a.mp3] stays so. *)
Theorem C7_records_follow_input_order (E : env) (target_dir : string)
    (files : list string) (w : world) :
  ∃ recs w',
    main_playlist_data E target_dir files w = (Val recs, w') ∧
    length recs = length files ∧
    map name recs = files ∧
    ∀ i f, files !! i = Some f →
      ∃ wi cv wi',
        main_playlist_data E target_dir (take i files) w = (Val (take i recs), wi) ∧
        extract_cover E (join target_dir f) (join target_dir COVERS_DIR) wi
          = (Val cv, wi') ∧
        recs !! i = Some (Entry f f cv).
Proof.
  unfold main_playlist_data. set (c := join target_dir COVERS_DIR).
  destruct (main_loop_val E target_dir c files w) as (recs & w' & Hrun).
  exists recs, w'. split; [done|].
  pose proof (main_loop_names _ _ _ _ _ _ _ Hrun) as Hnames.
  assert (map name recs = files) as Hmap.
  { clear Hrun. induction Hnames as [|f r fl rl [Hn _] _ IH]; simpl; congruence. }
  split; [symmetry; by eapply Forall2_length|].
  split; [done|].
  intros i f Hi.
  rewrite <- (take_drop_middle files i f Hi) in Hrun.
  destruct (main_loop_val E target_dir c (take i files) w) as (r1 & wi & Hpre).
  rewrite (main_loop_app _ _ _ _ _ _ _ _ Hpre), main_loop_cons in Hrun.
  destruct (extract_cover_val E (join target_dir f) c wi) as (cv & wi' & Hf).
  rewrite Hf in Hrun.
  destruct (main_loop E target_dir c (drop (S i) files) [] wi')
    as [[r2|e] w2]; simplify_eq.
  assert (length r1 = i) as Hlen.
  { rewrite (main_loop_length _ _ _ _ _ _ _ Hpre), length_take.
    apply lookup_lt_Some in Hi. lia. }
  exists wi, cv, wi'. split; [|split; [done|]].
  - by rewrite take_app_length' by done.
  - by rewrite list_lookup_middle.
Qed.

(** C10.  In every record of a run the [url] field and the [name] field
    are both the file name as it was listed: no directory prefix (it is
    the [basename] of the path that was opened) and no encoding. *)
Theorem C10_url_and_name_are_the_file_name (E : env) (target_dir : string)
    (files : list string) (w : world) :
  ∃ recs w',
    main_playlist_data E target_dir files w = (Val recs, w') ∧
    Forall (λ r, url r = name r) recs ∧
    Forall2 (λ f r, name r = f ∧ url r = f ∧
                    (contains "/" f = false →
                     name r = basename (join target_dir f)))
            files recs.
Proof.
  unfold main_playlist_data. set (c := join target_dir COVERS_DIR).
  destruct (main_loop_val E target_dir c files w) as (recs & w' & Hrun).
  exists recs, w'. split; [done|].
  pose proof (main_loop_names _ _ _ _ _ _ _ Hrun) as Hnames.
  split.
  - clear Hrun. induction Hnames as [|f r fl rl [Hn Hu] _ IH]; constructor;
      [congruence|done].
  - eapply Forall2_impl; [exact Hnames|].
    intros f r [Hn Hu]. repeat split; [done..|].
    intros Hf. by rewrite basename_join.
Qed.

(** The two-file batch of the specification, [b.mp3] first. *)
Example order_b_then_a :
  fst (main_playlist_data Sample.E "music" ["b.mp3"; "a.mp3"] Sample.empty_world)
  = Val [Entry "b.mp3" "b.mp3" None;
         Entry "a.mp3" "a.mp3" (Some "covers/c350ae3922f87222fe62773e8e4f1925.jpg")].
Proof. vm_compute. reflexivity. Qed.



(** ** extract_cover as seen by its caller *)


(** ** The artwork cache *)

Section Cache.
Context (E : env).

Lemma plan_of_cover file_path a data ext :
  HAS_MUTAGEN E = true →
  File E file_path = Val (Some a) →
  audio_bool a = true →
  select_image (audio_tags a) = Val (Some data, ext) →
  data ≠ [] →
  plan_of E file_path = Cover (file_hash file_path +:+ ext) data.
Proof.
  intros Hm Hf Ha Hsel Hd. unfold plan_of. rewrite Hm, Hf, Ha, Hsel. simpl.
  by destruct data.
Qed.


(** A missing file is written once, with the bytes that were selected. *)
Lemma extract_cover_stores file_path c w fn data :
  plan_of E file_path = Cover fn data →
  fs w !! join c fn = None →
  open_wb E (join c fn) = None →
  extract_cover E file_path c w =
    (Val (Some (COVERS_DIR +:+ "/" +:+ fn)),
     World (<[join c fn := data]> (fs w)) (Wrote (join c fn) data :: trace w)).
Proof.
  intros Hp Hex Ho. rewrite extract_cover_cases, Hp. simpl.
  rewrite bool_decide_eq_false_2, Ho; [done|].
  rewrite Hex. by intros [? ?].
Qed.

Lemma scan_frames_skip pre rest :
  Forall (λ tag, is_APIC tag = false) pre →
  scan_frames (pre ++ rest) = scan_frames rest.
Proof.
  induction 1 as [|tag pre Htag _ IH]; [done|].
  destruct tag; [done|]. exact IH.
Qed.

Lemma select_image_ID3 frames : select_image (ID3 frames) = Val (scan_frames frames).
Proof. reflexivity. Qed.

Lemma scan_frames_ext frames data ext :
  scan_frames frames = (Some data, ext) → ext = ".jpg" ∨ ext = ".png".
Proof.
  induction frames as [|[mime d|] rest IH]; simpl; [done| |done].
  destruct (contains "png" mime); intros; simplify_eq; auto.
Qed.

Lemma select_image_ext t data ext :
  select_image t = Val (Some data, ext) → ext = ".jpg" ∨ ext = ".png".
Proof.
  destruct t as [|frames|[[|d l]|]|]; simpl; try done.
  - intros [=]. by eapply scan_frames_ext.
  - intros Hsel. cbv in Hsel. simplify_eq. auto.
Qed.

End Cache.


(** C8.  With several APIC frames in an ID3 tag, the picture that is
    taken is the first one in the order of the frames; the frames after
    it play no part: the selected bytes and extension are those of the
    first APIC frame, and they are what a fresh cache file receives. *)
Theorem C8_first_apic_wins (pre post : list frame) (mime : string) (data : bytes) :
  Forall (λ tag, is_APIC tag = false) pre →
  scan_frames (pre ++ APIC mime data :: post)
    = (Some data, if contains "png" mime then ".png" else ".jpg") ∧
  select_image (ID3 (pre ++ APIC mime data :: post))
    = select_image (ID3 (pre ++ [APIC mime data])) ∧
  ∀ (E : env) file_path c a (w : world),
    HAS_MUTAGEN E = true →
    File E file_path = Val (Some a) →
    audio_bool a = true →
    audio_tags a = ID3 (pre ++ APIC mime data :: post) →
    data ≠ [] →
    let fn := file_hash file_path +:+ (if contains "png" mime then ".png" else ".jpg") in
    fs w !! join c fn = None →
    open_wb E (join c fn) = None →
    extract_cover E file_path c w
      = (Val (Some (COVERS_DIR +:+ "/" +:+ fn)),
         World (<[join c fn := data]> (fs w)) (Wrote (join c fn) data :: trace w)).
Proof.
  intros Hpre.
  assert (∀ rest, scan_frames (pre ++ APIC mime data :: rest)
                  = (Some data, if contains "png" mime then ".png" else ".jpg")) as Hscan.
  { intros rest. by rewrite scan_frames_skip. }
  split; [apply Hscan|]. split; [by rewrite !select_image_ID3, !Hscan|].
  intros E file_path c a w Hm Hf Ha Ht Hd fn Hex Ho.
  apply extract_cover_stores; [|done..].
  apply (plan_of_cover E file_path a); [done|done|done| |done].
  by rewrite Ht, select_image_ID3, Hscan.
Qed.

Lemma C8_first_apic_wins_witness :
  scan_frames ([OtherFrame "TIT2"] ++ APIC "image/jpeg" Sample.jpeg_B
                 :: [APIC "image/png" Sample.png_B])
    = (Some Sample.jpeg_B, if contains "png" "image/jpeg" then ".png" else ".jpg") ∧
  extract_cover Sample.E "music/a.mp3" "music/covers" Sample.empty_world
    = (Val (Some "covers/c350ae3922f87222fe62773e8e4f1925.jpg"),
       World {[ "music/covers/c350ae3922f87222fe62773e8e4f1925.jpg" := Sample.jpeg_B ]}
             [Wrote "music/covers/c350ae3922f87222fe62773e8e4f1925.jpg" Sample.jpeg_B]).
Proof.
  assert (Forall (λ tag, is_APIC tag = false) [OtherFrame "TIT2"]) as Hpre.
  { by repeat constructor. }
  destruct (C8_first_apic_wins [OtherFrame "TIT2"] [APIC "image/png" Sample.png_B]
              "image/jpeg" Sample.jpeg_B Hpre) as (Hscan & _ & Hrun).
  split; [exact Hscan|].
  exact (Hrun Sample.E "music/a.mp3" "music/covers" _ Sample.empty_world
           eq_refl eq_refl eq_refl eq_refl ltac:(done) eq_refl eq_refl).
Defined.







(** C6, the claim as written fails: the MIME string [image/x-png] is not
    [image/png], yet the frame is stored with the extension [.png]. *)
Lemma C6_counterexample_mime_x_png :
  File Sample.E "music/xpng.mp3"
    = Val (Some (Audio true (ID3 [APIC "image/x-png" Sample.png_B]))) ∧
  ext_of_mime_spec "image/x-png" = ".jpg" ∧
  scan_frames [APIC "image/x-png" Sample.png_B] = (Some Sample.png_B, ".png") ∧
  extract_cover Sample.E "music/xpng.mp3" "music/covers" Sample.empty_world
    = (Val (Some "covers/986d5313d021bcf54652a55b0620ad98.png"),
       World {[ "music/covers/986d5313d021bcf54652a55b0620ad98.png" := Sample.png_B ]}
             [Wrote "music/covers/986d5313d021bcf54652a55b0620ad98.png" Sample.png_B]).
Proof. repeat split; done. Qed.

(** C6, amended.  For every APIC frame the extension follows from the
    declared MIME string by a substring test: [.png] when the text [png]
    occurs in it (so for [image/png]), [.jpg] for every other value.
    The test is total: reading an ID3 tag never raises, whatever the
    MIME strings are. *)
Theorem C6_extension_from_png_substring (mime : string) (data : bytes)
    (rest frames : list frame) :
  scan_frames (APIC mime data :: rest)
    = (Some data, if contains "png" mime then ".png" else ".jpg") ∧
  (contains "png" mime = true ↔ ∃ l r, mime = l +:+ "png" +:+ r) ∧
  snd (scan_frames (APIC "image/png" data :: rest)) = ".png" ∧
  ((¬ ∃ l r, mime = l +:+ "png" +:+ r) →
   snd (scan_frames (APIC mime data :: rest)) = ".jpg") ∧
  select_image (ID3 frames) = Val (scan_frames frames).
Proof.
  split; [done|]. split; [apply contains_spec|]. split; [done|]. split; [|done].
  intros Hno. simpl. destruct (contains "png" mime) eqn:Hc; [|done].
  destruct Hno. by apply contains_spec.
Qed.

(** C4, the claim as written fails: [./music/a.mp3] and [music/a.mp3]
    are two spellings of the same canonical path, and their keys
    differ. *)
Lemma C4_counterexample_two_spellings_two_keys :
  normpath (join "./music" "a.mp3") = normpath (join "music" "a.mp3") ∧
  file_hash (join "./music" "a.mp3") = "25cb9b06ad9d47c553a300b4a6533bc9" ∧
  file_hash (join "music" "a.mp3") = "c350ae3922f87222fe62773e8e4f1925" ∧
  file_hash (join "./music" "a.mp3") ≠ file_hash (join "music" "a.mp3").
Proof. repeat split; by vm_compute. Qed.

(** C4, amended.  The cache key is the MD5 digest of the path string as
    it is passed to [extract_cover], not of a canonical form of it: 16
    bytes (128 bits), written as 32 lower-case hexadecimal digits.  It
    is a function of that string alone: whatever the environment, the
    covers directory and the state of the run, a returned reference is
    [covers/<key><ext>] with this key. *)
Theorem C4_key_is_md5_of_the_given_path (file_path : string) :
  file_hash file_path = MD5.hexdigest (encode_utf8 file_path) ∧
  length (MD5.digest (encode_utf8 file_path)) = 16%nat ∧
  Forall (λ b, 0 ≤ b < 256) (MD5.digest (encode_utf8 file_path)) ∧
  String.length (file_hash file_path) = 32%nat ∧
  Forall is_hex (list_ascii_of_string (file_hash file_path)) ∧
  ∀ (E : env) (c : string) (w w' : world) (r : string),
    extract_cover E file_path c w = (Val (Some r), w') →
    ∃ ext, (ext = ".jpg" ∨ ext = ".png") ∧
           r = COVERS_DIR +:+ "/" +:+ file_hash file_path +:+ ext.
Proof.
  split; [done|]. split; [apply digest_length|]. split; [apply digest_range|].
  split; [apply file_hash_length|]. split; [apply file_hash_hex|].
  intros E c w w' r. rewrite extract_cover_cases.
  destruct (plan_of E file_path) as [|e|fn data] eqn:Hplan; simpl; [done..|].
  assert (∃ ext, (ext = ".jpg" ∨ ext = ".png") ∧ fn = file_hash file_path +:+ ext)
    as (ext & Hext & ->).
  { revert Hplan. unfold plan_of.
    destruct (negb (HAS_MUTAGEN E)); [done|].
    destruct (File E file_path) as [[a|]|]; [|done..].
    destruct (negb (audio_bool a)); [done|].
    destruct (select_image (audio_tags a)) as [[[[|b bs]|] ext]|] eqn:Hsel; [done| |done..].
    intros; simplify_eq. eauto using select_image_ext. }
  case_bool_decide; [|destruct (open_wb E _)]; intros; simplify_eq; eauto.
Qed.



(** * Beyond the claims: the scanner, the manifest, the cache, main *)

(** ** The scanner and the manifest on concrete inputs *)

Example scan_example :
  scan ["b.mp3"; ".hidden.mp3"; "A.MP3"; "covers"; "c.flac"; "x.Ogg"; "playlist.js";
        "a.wav"; "é.m4a"; "mp3"; ".mp3"; "z.aac.txt"]
  = ["A.MP3"; "a.wav"; "b.mp3"; "x.Ogg"; "é.m4a"].
Proof. vm_compute. reflexivity. Qed.

(** The bytes [json.dumps] gives for two records, the second with a
    quote, a backslash, a line break, a tab, the characters 0x01 and 0x7f
    and a letter outside ASCII in its name. *)
Example js_content_example :
  let odd := String "q" (String dquote (String "\" (String newline (String "009"
               (String "001" (String "127" " é.mp3")))))) in
  encode_utf8 (js_content [Entry "a.mp3" "a.mp3" (Some "covers/x.jpg");
                           Entry odd odd None])
  = [99; 111; 110; 115; 116; 32; 76; 79; 67; 65; 76; 95; 70; 73; 76; 69;
     83; 32; 61; 32; 91; 10; 32; 32; 123; 10; 32; 32; 32; 32; 34; 110; 97;
     109; 101; 34; 58; 32; 34; 97; 46; 109; 112; 51; 34; 44; 10; 32; 32;
     32; 32; 34; 117; 114; 108; 34; 58; 32; 34; 97; 46; 109; 112; 51; 34;
     44; 10; 32; 32; 32; 32; 34; 99; 111; 118; 101; 114; 34; 58; 32; 34;
     99; 111; 118; 101; 114; 115; 47; 120; 46; 106; 112; 103; 34; 10; 32;
     32; 125; 44; 10; 32; 32; 123; 10; 32; 32; 32; 32; 34; 110; 97; 109;
     101; 34; 58; 32; 34; 113; 92; 34; 92; 92; 92; 110; 92; 116; 92; 117;
     48; 48; 48; 49; 127; 32; 195; 169; 46; 109; 112; 51; 34; 44; 10; 32;
     32; 32; 32; 34; 117; 114; 108; 34; 58; 32; 34; 113; 92; 34; 92; 92;
     92; 110; 92; 116; 92; 117; 48; 48; 48; 49; 127; 32; 195; 169; 46; 109;
     112; 51; 34; 44; 10; 32; 32; 32; 32; 34; 99; 111; 118; 101; 114; 34;
     58; 32; 110; 117; 108; 108; 10; 32; 32; 125; 10; 93; 59].
Proof. vm_compute. reflexivity. Qed.

(** The string literal of the 48 characters from 0x00 to 0x2f. *)
Example encode_basestring_example :
  encode_utf8 (encode_basestring (string_of_list_ascii (map ascii_of_nat (seq 0 48))))
  = [34; 92; 117; 48; 48; 48; 48; 92; 117; 48; 48; 48; 49; 92; 117; 48; 48;
     48; 50; 92; 117; 48; 48; 48; 51; 92; 117; 48; 48; 48; 52; 92; 117; 48;
     48; 48; 53; 92; 117; 48; 48; 48; 54; 92; 117; 48; 48; 48; 55; 92; 98;
     92; 116; 92; 110; 92; 117; 48; 48; 48; 98; 92; 102; 92; 114; 92; 117;
     48; 48; 48; 101; 92; 117; 48; 48; 48; 102; 92; 117; 48; 48; 49; 48;
     92; 117; 48; 48; 49; 49; 92; 117; 48; 48; 49; 50; 92; 117; 48; 48; 49;
     51; 92; 117; 48; 48; 49; 52; 92; 117; 48; 48; 49; 53; 92; 117; 48; 48;
     49; 54; 92; 117; 48; 48; 49; 55; 92; 117; 48; 48; 49; 56; 92; 117; 48;
     48; 49; 57; 92; 117; 48; 48; 49; 97; 92; 117; 48; 48; 49; 98; 92; 117;
     48; 48; 49; 99; 92; 117; 48; 48; 49; 100; 92; 117; 48; 48; 49; 101;
     92; 117; 48; 48; 49; 102; 32; 33; 92; 34; 35; 36; 37; 38; 39; 40; 41;
     42; 43; 44; 45; 46; 47; 34].
Proof. vm_compute. reflexivity. Qed.

Example js_content_empty : js_content [] = "const LOCAL_FILES = [];".
Proof. reflexivity. Qed.


(** ** Text: lengths, suffixes, lower case *)

Lemma length_append (a b : string) :
  String.length (a +:+ b) = (String.length a + String.length b)%nat.
Proof. induction a as [|c a IH]; [done|]. rewrite append_cons. simpl. by rewrite IH. Qed.

Lemma substring_all (b : string) : String.substring 0 (String.length b) b = b.
Proof. induction b as [|c b IH]; [done|]. simpl. by rewrite IH. Qed.

Lemma substring_append_tail (a b : string) :
  String.substring (String.length a) (String.length b) (a +:+ b) = b.
Proof. induction a as [|c a IH]; [apply substring_all|]. rewrite append_cons. exact IH. Qed.

Lemma substring_split (n : nat) : ∀ s,
  (n ≤ String.length s)%nat →
  ∃ pre, s = pre +:+ String.substring n (String.length s - n) s ∧ String.length pre = n.
Proof.
  induction n as [|n IH]; intros s Hn.
  - exists "". rewrite Nat.sub_0_r, substring_all. done.
  - destruct s as [|c s]; simpl in Hn; [lia|].
    destruct (IH s) as (pre & Hs & Hlen); [lia|].
    exists (String c pre). simpl. rewrite append_cons, <- Hs. by rewrite Hlen.
Qed.

(** [endswith] holds exactly of the texts that are made of something
    followed by the suffix. *)
Lemma endswith_spec (s suffix : string) :
  endswith s suffix = true ↔ ∃ pre, s = pre +:+ suffix.
Proof.
  unfold endswith. rewrite andb_true_iff, String.eqb_eq, Nat.leb_le. split.
  - intros [Hsub Hle].
    destruct (substring_split (String.length s - String.length suffix) s)
      as (pre & Hs & _); [lia|].
    replace (String.length s - (String.length s - String.length suffix))%nat
      with (String.length suffix) in Hs by lia.
    rewrite Hsub in Hs. eauto.
  - intros [pre ->]. rewrite length_append.
    replace (String.length pre + String.length suffix - String.length suffix)%nat
      with (String.length pre) by lia.
    split; [apply substring_append_tail|lia].
Qed.

Lemma append_inv_tail (a a' b b' : string) :
  String.length b = String.length b' → a +:+ b = a' +:+ b' → b = b'.
Proof.
  revert a'. induction a as [|c a IH]; intros a' Hlen Heq.
  - destruct a' as [|c' a']; [done|].
    apply (f_equal String.length) in Heq. rewrite append_nil_l, !length_append in Heq.
    simpl in Heq. lia.
  - destruct a' as [|c' a'].
    + apply (f_equal String.length) in Heq. rewrite append_nil_l, !length_append in Heq.
      simpl in Heq. lia.
    + rewrite !append_cons in Heq. simplify_eq. by eapply IH.
Qed.

Lemma endswith_same_length (a b suffix : string) :
  String.length b = String.length suffix →
  endswith (a +:+ b) suffix = String.eqb b suffix.
Proof.
  intros Hlen. destruct (String.eqb_spec b suffix) as [->|Hne].
  - apply endswith_spec. eauto.
  - apply not_true_is_false. intros [pre Heq]%endswith_spec.
    apply Hne. by eapply append_inv_tail.
Qed.

Lemma lower_append (a b : string) : lower (a +:+ b) = lower a +:+ lower b.
Proof. induction a as [|c a IH]; [done|]. rewrite append_cons. simpl. by rewrite IH, append_cons. Qed.

Lemma lower_length (s : string) : String.length (lower s) = String.length s.
Proof. induction s as [|c s IH]; simpl; congruence. Qed.

(** ** The scanner *)

(** X1.  The scanner returns the listed names that pass the test, each as
    often as it was listed, in ascending order.  A name passes when its
    lower-case form ends with one of the five extensions and the name does
    not begin with a dot: the test on the extension ignores case, and
    hidden files are left out. *)
Theorem scan_sorted_selection (listing : list string) :
  Sorted String.le (scan listing) ∧
  scan listing ≡ₚ filter (λ f, is_audio_name f = true) listing ∧
  ∀ f, f ∈ scan listing ↔
       f ∈ listing ∧
       (∃ stem ext, ext ∈ supported_extensions ∧ lower f = stem +:+ ext) ∧
       startswith f "." = false.
Proof.
  unfold scan. split; [apply (Sorted_merge_sort String.le)|].
  split; [apply merge_sort_Permutation|].
  intros f. rewrite merge_sort_Permutation, list_elem_of_filter.
  unfold is_audio_name. rewrite andb_true_iff, negb_true_iff, existsb_exists.
  split.
  - intros [[(ext & Hin & (stem & Hs)%endswith_spec) Hdot] Hf].
    split; [done|]. split; [|done]. exists stem, ext. by rewrite list_elem_of_In.
  - intros (Hf & (stem & ext & Hin & Hs) & Hdot).
    split; [|done]. split; [|done]. exists ext. rewrite <- list_elem_of_In.
    split; [done|]. apply endswith_spec. eauto.
Qed.

(** X2.  The order in which the directory lists its entries does not
    matter: two listings with the same names give the same scan. *)
Theorem scan_listing_order_irrelevant (listing listing' : list string) :
  listing ≡ₚ listing' → scan listing = scan listing'.
Proof.
  intros Hperm. unfold scan.
  apply (Sorted_unique String.le).
  - apply (Sorted_merge_sort String.le).
  - apply (Sorted_merge_sort String.le).
  - by rewrite !merge_sort_Permutation, Hperm.
Qed.

Lemma scan_listing_order_irrelevant_witness :
  scan ["b.mp3"; "a.mp3"; "notes.txt"] = scan ["notes.txt"; "a.mp3"; "b.mp3"].
Proof.
  apply scan_listing_order_irrelevant.
  apply (Permutation_trans (l' := ["a.mp3"; "b.mp3"; "notes.txt"])).
  - apply perm_swap.
  - change (["a.mp3"; "b.mp3"] ++ ["notes.txt"] ≡ₚ ["notes.txt"] ++ ["a.mp3"; "b.mp3"]).
    apply Permutation_app_comm.
Defined.

(** X3.  What [main] creates in the target folder (the covers directory,
    [playlist.js], [index.html]) is never taken for a track: a later
    listing that contains these names gives the same scan. *)
Theorem rescan_ignores_generated_files (listing listing' : list string) :
  listing' ≡ₚ listing ++ [COVERS_DIR; "playlist.js"; "index.html"] →
  scan listing' = scan listing.
Proof.
  intros Hperm. unfold scan.
  apply (Sorted_unique String.le).
  - apply (Sorted_merge_sort String.le).
  - apply (Sorted_merge_sort String.le).
  - rewrite !merge_sort_Permutation, Hperm, filter_app.
    by rewrite app_nil_r.
Qed.

Lemma rescan_ignores_generated_files_witness :
  scan ["index.html"; "b.mp3"; "covers"; "a.mp3"; "playlist.js"] = scan ["b.mp3"; "a.mp3"].
Proof.
  apply rescan_ignores_generated_files.
  change (["index.html"] ++ ["b.mp3"] ++ ["covers"] ++ ["a.mp3"] ++ ["playlist.js"]
          ≡ₚ ["b.mp3"] ++ ["a.mp3"] ++ ["covers"] ++ ["playlist.js"] ++ ["index.html"]).
  solve_Permutation.
Defined.

(** ** The names of the cache files *)

Lemma contains_slash_append (a b : string) :
  contains "/" (a +:+ b) = contains "/" a || contains "/" b.
Proof.
  induction a as [|c a IH]; [done|].
  by rewrite append_cons, !contains_slash_cons, IH, orb_assoc.
Qed.

Lemma hex_no_slash (s : string) :
  Forall is_hex (list_ascii_of_string s) → contains "/" s = false.
Proof.
  induction s as [|c s IH]; [done|]. simpl list_ascii_of_string.
  intros [Hc Hs]%Forall_cons. rewrite contains_slash_cons, (IH Hs), orb_false_r.
  unfold is_hex in Hc. simpl in Hc.
  repeat (destruct Hc as [<-|Hc]; [done|]). done.
Qed.

Lemma plan_of_cover_inv (E : env) (file_path fn : string) (data : bytes) :
  plan_of E file_path = Cover fn data →
  ∃ a ext,
    HAS_MUTAGEN E = true ∧ File E file_path = Val (Some a) ∧ audio_bool a = true ∧
    select_image (audio_tags a) = Val (Some data, ext) ∧ data ≠ [] ∧
    (ext = ".jpg" ∨ ext = ".png") ∧ fn = file_hash file_path +:+ ext.
Proof.
  unfold plan_of.
  destruct (HAS_MUTAGEN E); simpl; [|done].
  destruct (File E file_path) as [[a|]|]; [|done..].
  destruct (audio_bool a) eqn:Ha; simpl; [|done].
  destruct (select_image (audio_tags a)) as [[[[|b bs]|] ext]|] eqn:Hsel; [done| |done..].
  intros; simplify_eq. exists a, ext. repeat split; try done.
  by eapply select_image_ext.
Qed.

Lemma cover_name_facts (file_path ext : string) :
  ext = ".jpg" ∨ ext = ".png" →
  String.length (file_hash file_path +:+ ext) = 36%nat ∧
  contains "/" (file_hash file_path +:+ ext) = false ∧
  startswith (file_hash file_path +:+ ext) "." = false ∧
  is_audio_name (file_hash file_path +:+ ext) = false.
Proof.
  intros Hext.
  pose proof (file_hash_length file_path) as Hlen.
  pose proof (file_hash_hex file_path) as Hhex.
  split; [|split; [|split]].
  - rewrite length_append, Hlen. by destruct Hext as [-> | ->].
  - rewrite contains_slash_append, hex_no_slash by done. by destruct Hext as [-> | ->].
  - destruct (file_hash file_path) as [|c h]; [done|].
    apply Forall_cons in Hhex as [Hc _]. unfold is_hex in Hc. simpl in Hc.
    rewrite append_cons, startswith_cons.
    repeat (destruct Hc as [<-|Hc]; [done|]). done.
  - unfold is_audio_name. apply andb_false_iff. left.
    rewrite lower_append. unfold supported_extensions, existsb.
    rewrite !endswith_same_length by (by destruct Hext as [-> | ->]).
    by destruct Hext as [-> | ->].
Qed.

(** X4.  A reference that [extract_cover] returns is [covers/<name>]
    where the file [<covers dir>/<name>] exists when the call returns;
    the name is 32 hexadecimal digits followed by [.jpg] or [.png] (36
    characters, no separator), so the file sits directly inside the
    covers directory whatever the path of the audio file contains, and
    the scanner would never take it for a track. *)
Theorem returned_reference_names_a_cache_file (E : env) (file_path c : string)
    (w w' : world) (ref : string) :
  extract_cover E file_path c w = (Val (Some ref), w') →
  ∃ fn,
    ref = COVERS_DIR +:+ "/" +:+ fn ∧
    is_Some (fs w' !! join c fn) ∧
    String.length fn = 36%nat ∧
    Forall is_hex (take 32 (list_ascii_of_string fn)) ∧
    contains "/" fn = false ∧
    basename (join c fn) = fn ∧
    is_audio_name fn = false.
Proof.
  rewrite extract_cover_cases.
  destruct (plan_of E file_path) as [|e|fn data] eqn:Hplan; simpl; [done..|].
  apply plan_of_cover_inv in Hplan as (a & ext & _ & _ & _ & _ & _ & Hext & ->).
  destruct (cover_name_facts file_path ext Hext) as (Hlen & Hslash & _ & Haudio).
  intros Hrun. exists (file_hash file_path +:+ ext).
  assert (is_Some (fs w' !! join c (file_hash file_path +:+ ext))) as Hex.
  { revert Hrun. case_bool_decide as Hc; [by intros; simplify_eq|].
    destruct (open_wb E _); intros; simplify_eq. simpl.
    rewrite lookup_insert_eq. eauto. }
  assert (ref = COVERS_DIR +:+ "/" +:+ file_hash file_path +:+ ext) as ->.
  { revert Hrun. case_bool_decide; [|destruct (open_wb E _)]; by intros; simplify_eq. }
  repeat split; try done.
  - assert (list_ascii_of_string (file_hash file_path +:+ ext)
            = list_ascii_of_string (file_hash file_path) ++ list_ascii_of_string ext) as ->.
    { generalize (file_hash file_path). intros h.
      induction h as [|x h IH]; [done|]. rewrite append_cons. simpl. by rewrite IH. }
    rewrite take_app_length'; [apply file_hash_hex|].
    rewrite <- (file_hash_length file_path). generalize (file_hash file_path).
    intros h. induction h; simpl; congruence.
  - by apply basename_join.
Qed.

Lemma returned_reference_names_a_cache_file_witness :
  ∃ fn,
    "covers/f3e94838311eaf70d965af34f85cee04.jpg" = COVERS_DIR +:+ "/" +:+ fn ∧
    is_Some (fs (snd (extract_cover Sample.E "music/song.m4a" "music/covers"
                        Sample.empty_world)) !! join "music/covers" fn) ∧
    String.length fn = 36%nat ∧
    Forall is_hex (take 32 (list_ascii_of_string fn)) ∧
    contains "/" fn = false ∧
    basename (join "music/covers" fn) = fn ∧
    is_audio_name fn = false.
Proof.
  apply (returned_reference_names_a_cache_file Sample.E "music/song.m4a" "music/covers"
           Sample.empty_world).
  vm_compute. reflexivity.
Defined.

(** ** What a batch does to the covers directory *)

Section Batch.
Context (E : env).

Lemma extract_cover_new_entry file_path c w r w' k v :
  extract_cover E file_path c w = (Val r, w') →
  fs w' !! k = Some v → fs w !! k = None →
  ∃ a ext,
    File E file_path = Val (Some a) ∧
    select_image (audio_tags a) = Val (Some v, ext) ∧ v ≠ [] ∧
    (ext = ".jpg" ∨ ext = ".png") ∧
    k = join c (file_hash file_path +:+ ext) ∧ open_wb E k = None.
Proof.
  rewrite extract_cover_cases.
  destruct (plan_of E file_path) as [|e|fn data] eqn:Hplan; simpl;
    try (by intros; simplify_eq; simpl in *; congruence).
  apply plan_of_cover_inv in Hplan as (a & ext & _ & Hf & _ & Hsel & Hd & Hext & ->).
  case_bool_decide; [by intros; simplify_eq; congruence|].
  destruct (open_wb E _) eqn:Ho; intros ? Hk Hnone; simplify_eq; simpl in *; [congruence|].
  destruct (decide (join c (file_hash file_path +:+ ext) = k)) as [<-|Hne].
  - rewrite lookup_insert_eq in Hk. simplify_eq. eauto 10.
  - rewrite lookup_insert_ne in Hk by done. congruence.
Qed.

Lemma returned_reference_exists_aux file_path c w w' ref :
  extract_cover E file_path c w = (Val (Some ref), w') →
  ∃ fn, ref = COVERS_DIR +:+ "/" +:+ fn ∧ is_Some (fs w' !! join c fn).
Proof.
  rewrite extract_cover_cases.
  destruct (plan_of E file_path) as [|e|fn data]; simpl; [done..|].
  case_bool_decide as Hex; [by intros; simplify_eq; eauto|].
  destruct (open_wb E _); intros; simplify_eq. exists fn. split; [done|].
  simpl. rewrite lookup_insert_eq. eauto.
Qed.

Lemma extract_cover_size file_path c w r w' :
  extract_cover E file_path c w = (Val r, w') →
  (size (fs w') ≤ S (size (fs w)))%nat ∧
  (length (writes (trace w')) ≤ S (length (writes (trace w))))%nat.
Proof.
  rewrite extract_cover_cases.
  destruct (plan_of E file_path) as [|e|fn data]; simpl;
    try (by intros; simplify_eq; simpl; lia).
  case_bool_decide as Hex; [by intros; simplify_eq; lia|].
  destruct (open_wb E _); intros; simplify_eq; simpl; [lia|].
  rewrite map_size_insert_None; [lia|].
  apply eq_None_not_Some. done.
Qed.

Lemma main_loop_no_mutagen t c files : ∀ w,
  HAS_MUTAGEN E = false →
  main_loop E t c files [] w = (Val (map (λ f, Entry f f None) files), w).
Proof.
  intros w Hm. revert w. induction files as [|f rest IH]; intros w; [done|].
  rewrite main_loop_cons. unfold extract_cover. rewrite Hm. simpl.
  unfold mret, Py_ret. by rewrite IH.
Qed.

Lemma main_loop_keeps_content t c files : ∀ w r w' k v,
  main_loop E t c files [] w = (Val r, w') →
  fs w !! k = Some v → fs w' !! k = Some v.
Proof.
  induction files as [|f rest IH]; intros w r w' k v.
  - simpl. unfold mret, Py_ret. by intros; simplify_eq.
  - rewrite main_loop_cons.
    destruct (extract_cover E (join t f) c w) as [[cv|e] w1] eqn:Hf; [|done].
    destruct (main_loop E t c rest [] w1) as [[r0|e] wb] eqn:Hrest; [|done].
    intros; simplify_eq. eapply IH; [done|]. by eapply extract_cover_keeps.
Qed.

End Batch.


(** X6.  No record of a batch refers to a missing cover: when the [cover]
    field is a reference, it is [covers/<name>] and the file
    [<covers dir>/<name>] is in the covers directory when the batch
    ends. *)
Theorem batch_references_exist (E : env) (target_dir : string)
    (files : list string) (w : world) :
  ∃ recs w',
    main_playlist_data E target_dir files w = (Val recs, w') ∧
    Forall (λ r, ∀ ref, cover r = Some ref →
                 ∃ fn, ref = COVERS_DIR +:+ "/" +:+ fn ∧
                       is_Some (fs w' !! join (join target_dir COVERS_DIR) fn))
           recs.
Proof.
  unfold main_playlist_data. set (c := join target_dir COVERS_DIR). clearbody c.
  revert w. induction files as [|f rest IH]; intros w.
  - exists [], w. split; [done|]. constructor.
  - destruct (extract_cover_val E (join target_dir f) c w) as (cv & w1 & Hf).
    destruct (IH w1) as (r & w' & Hrest & Hall).
    exists (Entry f f cv :: r), w'. split; [by rewrite main_loop_cons, Hf, Hrest|].
    constructor; [|done]. simpl. intros ref ->.
    destruct (returned_reference_exists_aux E _ _ _ _ _ Hf) as (fn & -> & [v Hv]).
    exists fn. split; [done|]. exists v.
    by eapply main_loop_keeps_content.
Qed.

(** X7.  A batch creates at most one cache file per input file: the
    covers directory grows by at most the number of files, and so does
    the number of writes. *)
Theorem batch_growth_is_bounded (E : env) (target_dir : string)
    (files : list string) (w : world) :
  ∃ recs w',
    main_playlist_data E target_dir files w = (Val recs, w') ∧
    (size (fs w') ≤ size (fs w) + length files)%nat ∧
    (length (writes (trace w')) ≤ length (writes (trace w)) + length files)%nat.
Proof.
  unfold main_playlist_data. set (c := join target_dir COVERS_DIR). clearbody c.
  revert w. induction files as [|f rest IH]; intros w.
  - exists [], w. split; [done|]. simpl. lia.
  - destruct (extract_cover_val E (join target_dir f) c w) as (cv & w1 & Hf).
    destruct (IH w1) as (r & w' & Hrest & Hsize & Hwr).
    exists (Entry f f cv :: r), w'. split; [by rewrite main_loop_cons, Hf, Hrest|].
    destruct (extract_cover_size E _ _ _ _ _ Hf). simpl. lia.
Qed.

(** X8.  Without mutagen ([HAS_MUTAGEN] false) the batch runs in its
    no-picture mode: every file gets a record with [cover = None], in
    order, and the world is left exactly as it was: nothing is read
    through [File], nothing is written, nothing is printed. *)
Theorem batch_without_mutagen (E : env) (target_dir : string)
    (files : list string) (w : world) :
  HAS_MUTAGEN E = false →
  main_playlist_data E target_dir files w
    = (Val (map (λ f, Entry f f None) files), w).
Proof.
  intros Hm. unfold main_playlist_data.
  by apply main_loop_no_mutagen.
Qed.

Lemma batch_without_mutagen_witness :
  main_playlist_data (Env false Sample.library (λ _, None)) "music"
      ["a.mp3"; "song.m4a"] Sample.empty_world
    = (Val (map (λ f, Entry f f None) ["a.mp3"; "song.m4a"]), Sample.empty_world).
Proof. apply batch_without_mutagen. reflexivity. Defined.

(** X9.  A file without artwork is not an error.  When [File] does not
    recognise the file, or the object it returns is false, or the tags
    hold no [covr] atom and no APIC frame (an MP4 file without [covr], an
    ID3 tag without APIC, a container of another kind), [extract_cover]
    returns [None] and leaves the world as it was: no line is printed,
    nothing is written. *)
Theorem no_artwork_is_silent (E : env) (file_path c : string) (w : world) :
  (File E file_path = Val None ∨
   ∃ a, File E file_path = Val (Some a) ∧
        (audio_bool a = false ∨
         audio_tags a = OtherTags ∨
         audio_tags a = MP4Tags None ∨
         ∃ frames, audio_tags a = ID3 frames ∧
                   Forall (λ tag, is_APIC tag = false) frames)) →
  extract_cover E file_path c w = (Val None, w).
Proof.
  intros Hcase. rewrite extract_cover_cases.
  assert (plan_of E file_path = NoCover) as ->; [|done].
  unfold plan_of. destruct (negb (HAS_MUTAGEN E)); [done|].
  destruct Hcase as [-> | (a & -> & Ha)]; [done|].
  destruct Ha as [-> | Ha]; [done|].
  destruct (negb (audio_bool a)); [done|].
  destruct Ha as [-> | [-> | (frames & -> & Hfr)]]; [done..|].
  rewrite select_image_ID3.
  replace frames with (frames ++ []) by apply app_nil_r.
  by rewrite scan_frames_skip.
Qed.

Lemma no_artwork_is_silent_witness :
  extract_cover Sample.E "music/untagged.mp3" "music/covers" Sample.empty_world
    = (Val None, Sample.empty_world).
Proof.
  apply no_artwork_is_silent. right.
  exists (Audio false NoTags). split; [reflexivity|]. left. reflexivity.
Defined.

(** X10.  The first APIC frame decides even when it is empty: if its
    data is the empty byte string, [extract_cover] returns [None]
    silently, although a later APIC frame may carry a picture. *)
Theorem empty_first_apic_hides_the_rest (E : env) (file_path c : string) (a : audio)
    (pre post : list frame) (mime : string) (w : world) :
  File E file_path = Val (Some a) →
  audio_tags a = ID3 (pre ++ APIC mime [] :: post) →
  Forall (λ tag, is_APIC tag = false) pre →
  extract_cover E file_path c w = (Val None, w).
Proof.
  intros Hf Ht Hpre. rewrite extract_cover_cases.
  assert (plan_of E file_path = NoCover) as ->; [|done].
  unfold plan_of. rewrite Hf, Ht, select_image_ID3, scan_frames_skip by done.
  simpl. by destruct (negb (HAS_MUTAGEN E)), (negb (audio_bool a)).
Qed.

Lemma empty_first_apic_hides_the_rest_witness :
  extract_cover
    (Env true
       (λ _, Val (Some (Audio true
          (ID3 ([OtherFrame "TIT2"] ++ APIC "image/jpeg" []
                  :: [APIC "image/png" Sample.png_B])))))
       (λ _, None))
    "music/a.mp3" "music/covers" Sample.empty_world
  = (Val None, Sample.empty_world).
Proof.
  eapply (empty_first_apic_hides_the_rest _ _ _ _ [OtherFrame "TIT2"]
            [APIC "image/png" Sample.png_B] "image/jpeg").
  - reflexivity.
  - reflexivity.
  - by repeat constructor.
Defined.

(** ** The manifest *)

Lemma strip_prefix_app (lit rest : string) : strip_prefix lit (lit +:+ rest) = Some rest.
Proof.
  induction lit as [|a lit IH]; [done|].
  rewrite append_cons. simpl. by rewrite Ascii.eqb_refl.
Qed.

Lemma strip_all_cons (lit : string) (lits : list string) (rest : string) :
  strip_all (lit :: lits) (lit +:+ rest) = strip_all lits rest.
Proof. simpl. by rewrite strip_prefix_app. Qed.

Lemma read_chars_escape_char (c : ascii) (rest : string) :
  read_chars (escape_char c +:+ rest) = cons_fst c (read_chars rest).
Proof.
  destruct c as [b0 b1 b2 b3 b4 b5 b6 b7].
  destruct b0, b1, b2, b3, b4, b5, b6, b7; reflexivity.
Qed.

Lemma read_chars_escape (s rest : string) :
  read_chars (escape s +:+ String dquote rest) = Some (s, rest).
Proof.
  induction s as [|c s IH]; [done|].
  simpl escape. by rewrite append_assoc, read_chars_escape_char, IH.
Qed.

Lemma encode_basestring_append (s rest : string) :
  encode_basestring s +:+ rest = String dquote (escape s +:+ String dquote rest).
Proof. unfold encode_basestring. by rewrite append_cons, append_assoc, append_cons. Qed.

Lemma read_string_encode (s rest : string) :
  read_string (encode_basestring s +:+ rest) = Some (s, rest).
Proof. rewrite encode_basestring_append. simpl. apply read_chars_escape. Qed.

Lemma read_cover_dumps (level : nat) (c : option string) (rest : string) :
  read_cover (dumps level (match c with Some t => JString t | None => JNull end) +:+ rest)
  = Some (c, rest).
Proof.
  destruct c as [t|]; simpl dumps; unfold read_cover.
  - assert (strip_prefix "null" (encode_basestring t +:+ rest) = None) as ->.
    { by rewrite encode_basestring_append. }
    by rewrite read_string_encode.
  - by rewrite strip_prefix_app.
Qed.

Lemma dumps_entry (e : entry) :
  dumps 1 (json_of_entry e)
  = "{" +:+ newline_indent 2 +:+ encode_basestring "name" +:+ ": "
    +:+ encode_basestring (name e)
    +:+ "," +:+ newline_indent 2 +:+ encode_basestring "url" +:+ ": "
    +:+ encode_basestring (url e)
    +:+ "," +:+ newline_indent 2 +:+ encode_basestring "cover" +:+ ": "
    +:+ dumps 2 (match cover e with Some t => JString t | None => JNull end)
    +:+ newline_indent 1 +:+ "}".
Proof.
  unfold json_of_entry.
  change (dumps 1 (JObject ?items))
    with ("{" +:+ newline_indent 2
          +:+ String.concat ("," +:+ newline_indent 2)
                (map (fun kv => encode_basestring (fst kv) +:+ ": "
                                +:+ dumps 2 (snd kv)) items)
          +:+ newline_indent 1 +:+ "}").
  cbn [map fst snd String.concat dumps].
  by rewrite !append_assoc.
Qed.

Lemma read_entry_dumps (e : entry) (rest : string) :
  read_entry (dumps 1 (json_of_entry e) +:+ rest) = Some (e, rest).
Proof.
  rewrite dumps_entry, !append_assoc. unfold read_entry. cbn [strip_all].
  repeat (rewrite ?strip_prefix_app, ?read_string_encode, ?read_cover_dumps;
          cbn [mbind option_bind]).
  by destruct e.
Qed.

Lemma read_entries_dumps (rest : string) : ∀ (e : entry) (es : list entry) (fuel : nat),
  (length es < fuel)%nat →
  read_entries fuel
    (String.concat ("," +:+ newline_indent 1) (map (dumps 1) (map json_of_entry (e :: es)))
     +:+ newline_indent 0 +:+ "]" +:+ rest)
  = Some (e :: es, rest).
Proof.
  intros e es. revert e. induction es as [|e' es IH]; intros e fuel Hfuel;
    (destruct fuel as [|fuel]; [simpl in Hfuel; lia|]).
  - cbn [map String.concat read_entries].
    rewrite read_entry_dumps. cbn [mbind option_bind].
    assert (strip_all [","; newline_indent 1] (newline_indent 0 +:+ "]" +:+ rest) = None)
      as -> by done.
    cbn [strip_all]. by rewrite !strip_prefix_app.
  - change (map (dumps 1) (map json_of_entry (e :: e' :: es)))
      with (dumps 1 (json_of_entry e) :: map (dumps 1) (map json_of_entry (e' :: es))).
    change (String.concat ?sep (?x :: map (dumps 1) (map json_of_entry (e' :: es))))
      with (x +:+ sep +:+ String.concat sep (map (dumps 1) (map json_of_entry (e' :: es)))).
    rewrite !append_assoc. cbn [read_entries].
    rewrite read_entry_dumps. cbn [mbind option_bind strip_all].
    rewrite !strip_prefix_app.
    rewrite IH by (simpl in Hfuel; lia). done.
Qed.

Lemma concat_length_ge (sep : string) (l : list string) :
  Forall (λ x, (1 ≤ String.length x)%nat) l →
  (length l ≤ String.length (String.concat sep l))%nat.
Proof.
  induction 1 as [|x l Hx Hl IH]; [done|].
  destruct l as [|y l]; [simpl; lia|].
  change (String.concat sep (x :: y :: l)) with (x +:+ sep +:+ String.concat sep (y :: l)).
  rewrite !length_append. simpl in *. lia.
Qed.

Lemma js_content_length (playlist_data : list entry) :
  (length playlist_data < String.length (js_content playlist_data))%nat.
Proof.
  unfold js_content. rewrite length_append. simpl String.length at 1.
  destruct playlist_data as [|e es]; [simpl; lia|].
  unfold json_of_playlist.
  change (dumps 0 (JArray (map json_of_entry (e :: es))))
    with ("[" +:+ newline_indent 1
          +:+ String.concat ("," +:+ newline_indent 1)
                (map (dumps 1) (map json_of_entry (e :: es)))
          +:+ newline_indent 0 +:+ "]").
  rewrite !length_append.
  pose proof (concat_length_ge ("," +:+ newline_indent 1)
                (map (dumps 1) (map json_of_entry (e :: es)))) as Hlen.
  rewrite !length_map in Hlen.
  assert (Forall (λ x, (1 ≤ String.length x)%nat)
            (map (dumps 1) (map json_of_entry (e :: es)))) as Hall.
  { generalize (e :: es). intros l. induction l as [|e0 l IH]; constructor; [|done].
    rewrite dumps_entry, length_append. simpl. lia. }
  specialize (Hlen Hall). lia.
Qed.

Lemma read_manifest_js_content (playlist_data : list entry) :
  read_manifest (js_content playlist_data) = Some playlist_data.
Proof.
  unfold read_manifest.
  pose proof (js_content_length playlist_data) as Hfuel.
  generalize dependent (String.length (js_content playlist_data)). intros fuel Hfuel.
  unfold js_content. rewrite strip_prefix_app. cbn [mbind option_bind].
  destruct playlist_data as [|e es]; [done|].
  unfold json_of_playlist.
  change (dumps 0 (JArray (map json_of_entry (e :: es))))
    with ("[" +:+ newline_indent 1
          +:+ String.concat ("," +:+ newline_indent 1)
                (map (dumps 1) (map json_of_entry (e :: es)))
          +:+ newline_indent 0 +:+ "]").
  rewrite !append_assoc.
  assert (∀ x, strip_prefix "[]" ("[" +:+ newline_indent 1 +:+ x) = None) as -> by done.
  cbn [strip_all]. rewrite !strip_prefix_app. cbn [mbind option_bind].
  rewrite read_entries_dumps by (simpl in Hfuel; lia). done.
Qed.

(** X11.  The text of [playlist.js] determines the records: two lists of
    records with the same text are the same list.  No file name can make
    one manifest pass for another. *)
Theorem manifest_determines_records (playlist_data playlist_data' : list entry) :
  js_content playlist_data = js_content playlist_data' →
  playlist_data = playlist_data'.
Proof.
  intros Heq.
  assert (Some playlist_data = Some playlist_data') as [=]; [|done].
  by rewrite <- !read_manifest_js_content, Heq.
Qed.

Lemma manifest_determines_records_witness :
  js_content [Entry "a.mp3" "a.mp3" None] = js_content [Entry "a.mp3" "a.mp3" None] ∧
  [Entry "a.mp3" "a.mp3" None] = [Entry "a.mp3" "a.mp3" None].
Proof.
  split; [reflexivity|].
  apply (manifest_determines_records [Entry "a.mp3" "a.mp3" None]
           [Entry "a.mp3" "a.mp3" None]).
  reflexivity.
Defined.

Lemma decode_encode_utf8 (s : string) : decode_utf8 (encode_utf8 s) = s.
Proof.
  unfold decode_utf8, encode_utf8. rewrite map_map.
  induction s as [|c s IH]; [done|]. simpl.
  by rewrite N2Z.id, ascii_N_embedding, IH.
Qed.

(** X12.  The bytes [main] writes to [playlist.js] can be read back:
    decoded as text and read with a reader of the format, they give the
    list of records, with every name, url and cover exactly as given,
    whatever characters they contain (quotes, backslashes, line breaks
    and other control characters are escaped by the writer and restored
    by the reader). *)
Theorem manifest_reads_back (playlist_data : list entry) :
  read_manifest (decode_utf8 (encode_utf8 (js_content playlist_data)))
  = Some playlist_data.
Proof.
  rewrite decode_encode_utf8.
  apply read_manifest_js_content.
Qed.



(** ** main *)

Section MainFacts.
Context (E : env) (Ho : host).

Lemma fs_warned (w : world) : fs (warned E w) = fs w.
Proof. unfold warned. by destruct (HAS_MUTAGEN E). Qed.

Lemma writes_warned (w : world) : writes (trace (warned E w)) = writes (trace w).
Proof. unfold warned. by destruct (HAS_MUTAGEN E). Qed.

Lemma fs_announced (t : string) (files : list string) (w : world) :
  fs (announced E t files w) = fs w.
Proof. unfold announced. by destruct (HAS_MUTAGEN E). Qed.

(** The run of [main] step by step, as a decision tree over what it
    finds. *)
Lemma main_cases (target_dir : string) (m : machine) :
  let template_path := join (script_dir Ho) "player_template.html" in
  let covers_path := join target_dir COVERS_DIR in
  let js_dest_path := join target_dir "playlist.js" in
  let html_dest_path := join target_dir "index.html" in
  let exists_in (m : machine) (p : string) :=
    bool_decide (is_Some (fs (disk m) !! p)) || bool_decide (p ∈ dirs m) in
  let w0 := warned E (disk m) in
  main E Ho target_dir m =
    if negb (exists_in m template_path) then
      (Val tt, Machine (put "エラー: player_template.html が見つかりません。" w0) (dirs m))
    else if negb (bool_decide (target_dir ∈ dirs m)) then
      (Val tt, Machine (put ("エラー: ディレクトリが見つかりません: " +:+ target_dir) w0)
                       (dirs m))
    else
      let create := HAS_MUTAGEN E && negb (exists_in m covers_path) in
      match (if create then makedirs_err Ho covers_path else None) with
      | Some e => (Exc e, Machine w0 (dirs m))
      | None =>
          let d1 := if create then {[ covers_path ]} ∪ dirs m else dirs m in
          match listdir Ho target_dir with
          | Exc e => (Exc e, Machine w0 d1)
          | Val listing =>
              let files := scan listing in
              match main_playlist_data E target_dir files
                      (announced E target_dir files w0) with
              | (Exc e, w2) => (Exc e, Machine w2 d1)
              | (Val playlist_data, w2) =>
                  match open_w_err Ho js_dest_path with
                  | Some e =>
                      (Val tt, Machine (put ("エラー (playlist.js): " +:+ exn_str e) w2) d1)
                  | None =>
                      let text := encode_utf8 (js_content playlist_data) in
                      let w3 := World (<[js_dest_path := text]> (fs w2))
                                      (Wrote js_dest_path text :: trace w2) in
                      match copy2_err Ho template_path html_dest_path with
                      | Some e =>
                          (Val tt, Machine (put ("エラー (index.html): " +:+ exn_str e) w3) d1)
                      | None =>
                          match fs w3 !! template_path with
                          | None =>
                              (Val tt,
                               Machine (put ("エラー (index.html): "
                                             +:+ "[Errno 21] Is a directory: '"
                                             +:+ template_path +:+ "'") w3) d1)
                          | Some content =>
                              let dst := if bool_decide (html_dest_path ∈ d1)
                                         then join html_dest_path (basename template_path)
                                         else html_dest_path in
                              (Val tt,
                               Machine (put "✔ 生成完了"
                                          (World (<[dst := content]> (fs w3))
                                                 (Wrote dst content :: trace w3))) d1)
                          end
                      end
                  end
              end
          end
      end.
Proof.
  intros template_path covers_path js_dest_path html_dest_path exists_in w0.
  unfold main.
  fold template_path covers_path js_dest_path html_dest_path.
  unfold mbind, Sh_bind, sh_exists, sh_isdir, sh_lift, sh_try, say, on_disk, print,
    sh_makedirs, write_text, sh_copy2, mret, Sh_ret.
  subst w0 exists_in. unfold announced, warned, put. cbv beta. destruct m as [w d].
  destruct (HAS_MUTAGEN E); cbn [negb andb disk dirs fs trace].
  all: destruct (bool_decide (is_Some (fs w !! template_path))
                 || bool_decide (template_path ∈ d));
    cbn [negb andb disk dirs fs trace]; [|reflexivity].
  all: destruct (bool_decide (target_dir ∈ d));
    cbn [negb andb disk dirs fs trace]; [|reflexivity].
  1: destruct (bool_decide (is_Some (fs w !! covers_path))
               || bool_decide (covers_path ∈ d));
    cbn [negb andb disk dirs fs trace];
    [|destruct (makedirs_err Ho covers_path); [reflexivity|]].
  all: cbn [negb andb disk dirs fs trace].
  all: destruct (listdir Ho target_dir) as [listing|e]; [|reflexivity].
  all: cbn [negb andb disk dirs fs trace].
  all: destruct (main_playlist_data E target_dir (scan listing) _) as [[pd|e] w2];
    [|reflexivity].
  all: cbn [negb andb disk dirs fs trace].
  all: destruct (open_w_err Ho js_dest_path); [reflexivity|].
  all: cbn [negb andb disk dirs fs trace].
  all: destruct (copy2_err Ho template_path html_dest_path); [reflexivity|].
  all: cbn [negb andb disk dirs fs trace].
  all: destruct (<[js_dest_path:=_]> (fs w2) !! template_path); reflexivity.
Qed.

Lemma main_loop_new_names t c files : ∀ w r w' p v,
  main_loop E t c files [] w = (Val r, w') →
  fs w' !! p = Some v → fs w !! p = None →
  ∃ fn, p = join c fn ∧ String.length fn = 36%nat ∧ contains "/" fn = false.
Proof.
  induction files as [|f rest IH]; intros w r w' p v.
  - simpl. unfold mret, Py_ret. by intros; simplify_eq.
  - rewrite main_loop_cons.
    destruct (extract_cover E (join t f) c w) as [[cv|e] w1] eqn:Hf; [|done].
    destruct (main_loop E t c rest [] w1) as [[r0|e] wb] eqn:Hrest; [|done].
    intros ? Hp Hn; simplify_eq.
    destruct (fs w1 !! p) as [v1|] eqn:Hp1; [|by eapply IH].
    destruct (extract_cover_new_entry E _ _ _ _ _ _ _ Hf Hp1 Hn)
      as (a & ext & _ & _ & _ & Hext & -> & _).
    destruct (cover_name_facts (join t f) ext Hext) as (? & ? & _).
    eauto.
Qed.

Lemma main_loop_writes_only_covers t c files w r w' name :
  main_loop E t c files [] w = (Val r, w') →
  contains "/" name = false → String.length name ≠ 36%nat →
  fs w' !! join t name = fs w !! join t name.
Proof.
  intros Hrun Hname Hlen.
  destruct (fs w !! join t name) as [v|] eqn:Hw.
  - by eapply main_loop_keeps_content.
  - destruct (fs w' !! join t name) as [v|] eqn:Hw'; [|done].
    destruct (main_loop_new_names _ _ _ _ _ _ _ _ Hrun Hw' Hw) as (fn & Heq & Hfn & Hslash).
    apply (f_equal basename) in Heq. rewrite !basename_join in Heq by done.
    congruence.
Qed.

End MainFacts.



(** X14.  When [player_template.html] is not beside the script, or the
    target is not a directory, [main] prints the error and returns: no
    file is written, no directory is created, the folder is not even
    listed. *)
Theorem main_stops_before_touching_the_disk (E : env) (Ho : host) (target_dir : string)
    (m : machine) :
  let template_path := join (script_dir Ho) "player_template.html" in
  (fs (disk m) !! template_path = None ∧ template_path ∉ dirs m) ∨ target_dir ∉ dirs m →
  ∃ line w',
    main E Ho target_dir m = (Val tt, Machine w' (dirs m)) ∧
    fs w' = fs (disk m) ∧
    writes (trace w') = writes (trace (disk m)) ∧
    head (trace w') = Some (Printed line) ∧
    (line = "エラー: player_template.html が見つかりません。" ∨
     line = "エラー: ディレクトリが見つかりません: " +:+ target_dir).
Proof.
  intros template_path Hcase. rewrite main_cases. cbv zeta. fold template_path.
  destruct (negb (_ || _)) eqn:Htpl.
  - eexists _, _. split; [done|]. simpl.
    rewrite fs_warned, writes_warned. auto.
  - destruct Hcase as [[Hfile Hdir]|Hdir].
    + apply negb_false_iff, orb_true_iff in Htpl as [Ht|Ht];
        apply bool_decide_eq_true in Ht; [|done].
      rewrite Hfile in Ht. by destruct Ht.
    + rewrite bool_decide_eq_false_2 by done. simpl.
      eexists _, _. split; [done|]. simpl.
      rewrite fs_warned, writes_warned. auto.
Qed.

Lemma main_stops_before_touching_the_disk_witness :
  ∃ line w',
    main Sample.E SampleHost.host0 "nowhere" SampleHost.machine0
      = (Val tt, Machine w' (dirs SampleHost.machine0)) ∧
    fs w' = fs (disk SampleHost.machine0) ∧
    writes (trace w') = writes (trace (disk SampleHost.machine0)) ∧
    head (trace w') = Some (Printed line) ∧
    (line = "エラー: player_template.html が見つかりません。" ∨
     line = "エラー: ディレクトリが見つかりません: " +:+ "nowhere").
Proof.
  apply (main_stops_before_touching_the_disk Sample.E SampleHost.host0 "nowhere"
           SampleHost.machine0).
  right. vm_compute. set_solver.
Defined.

Lemma join_ne (d d' name name' : string) :
  contains "/" name = false → contains "/" name' = false → name ≠ name' →
  join d name ≠ join d' name'.
Proof.
  intros Hn Hn' Hne Heq. apply (f_equal basename) in Heq.
  by rewrite !basename_join in Heq.
Qed.

(** X15.  A run in which nothing fails ends with the manifest and the
    page in place: [playlist.js] in the target folder holds the text of
    the records of the scanned files (their names, in order, are the
    scan of the listing), [index.html] is a copy of the template, the
    template is still there, and the last line printed is the success
    message. *)
Theorem main_writes_manifest_and_page (E : env) (Ho : host) (target_dir : string)
    (m : machine) (listing : list string) (content : bytes) :
  let template_path := join (script_dir Ho) "player_template.html" in
  let js_dest_path := join target_dir "playlist.js" in
  let html_dest_path := join target_dir "index.html" in
  fs (disk m) !! template_path = Some content →
  target_dir ∈ dirs m →
  makedirs_err Ho (join target_dir COVERS_DIR) = None →
  listdir Ho target_dir = Val listing →
  open_w_err Ho js_dest_path = None →
  copy2_err Ho template_path html_dest_path = None →
  html_dest_path ∉ dirs m →
  ∃ playlist_data m',
    main E Ho target_dir m = (Val tt, m') ∧
    map name playlist_data = scan listing ∧
    fs (disk m') !! js_dest_path = Some (encode_utf8 (js_content playlist_data)) ∧
    fs (disk m') !! html_dest_path = Some content ∧
    fs (disk m') !! template_path = Some content ∧
    head (trace (disk m')) = Some (Printed "✔ 生成完了").
Proof.
  intros template_path js_dest_path html_dest_path Htpl Hdir Hmk Hls Hjs Hcp Hhtml.
  rewrite main_cases. cbv zeta.
  fold template_path js_dest_path html_dest_path.
  rewrite (bool_decide_eq_true_2 (is_Some (fs (disk m) !! template_path))) by eauto.
  rewrite (bool_decide_eq_true_2 (target_dir ∈ dirs m)) by done.
  cbn [orb negb]. rewrite Hmk, Hls, Hjs, Hcp.
  assert (∀ b : bool, (if b then (None : option exn) else None) = None) as -> by (by intros []).
  unfold main_playlist_data.
  match goal with |- context [main_loop E ?t ?c ?fl [] ?w] =>
    destruct (main_loop_val E t c fl w) as (pd & w2 & Hrun) end.
  rewrite Hrun.
  assert (fs w2 !! template_path = Some content) as Htpl2.
  { eapply main_loop_keeps_content; [done|]. by rewrite fs_announced, fs_warned. }
  assert (js_dest_path ≠ template_path) as Hne1 by (by apply join_ne).
  assert (html_dest_path ≠ js_dest_path) as Hne2 by (by apply join_ne).
  cbn [fs]. rewrite lookup_insert_ne, Htpl2 by done.
  assert (∀ b : bool, bool_decide (html_dest_path ∈
            (if b then {[join target_dir COVERS_DIR]} ∪ dirs m else dirs m)) = false) as ->.
  { intros b. apply bool_decide_eq_false_2. destruct b; [|done].
    intros [Heq%elem_of_singleton|?]%elem_of_union; [|done].
    revert Heq. by apply join_ne. }
  eexists pd, _. split; [done|]. cbn [disk fs trace put].
  split.
  { apply main_loop_names in Hrun. clear -Hrun.
    induction Hrun as [|f r fl rl [Hn _] _ IH]; simpl; congruence. }
  split; [by rewrite lookup_insert_ne, lookup_insert_eq|].
  split; [by rewrite lookup_insert_eq|].
  split; [|done].
  destruct (decide (html_dest_path = template_path)) as [->|Hne3].
  - by rewrite lookup_insert_eq.
  - by rewrite !lookup_insert_ne.
Qed.

Lemma main_writes_manifest_and_page_witness :
  ∃ playlist_data m',
    main Sample.E SampleHost.host0 "music" SampleHost.machine0 = (Val tt, m') ∧
    map name playlist_data
      = scan ["song.m4a"; "notes.txt"; ".hidden.mp3"; "bad.mp3"; "a.mp3"] ∧
    fs (disk m') !! join "music" "playlist.js"
      = Some (encode_utf8 (js_content playlist_data)) ∧
    fs (disk m') !! join "music" "index.html" = Some SampleHost.template ∧
    fs (disk m') !! join (script_dir SampleHost.host0) "player_template.html"
      = Some SampleHost.template ∧
    head (trace (disk m')) = Some (Printed "✔ 生成完了").
Proof.
  apply (main_writes_manifest_and_page Sample.E SampleHost.host0 "music"
           SampleHost.machine0).
  - reflexivity.
  - vm_compute. set_solver.
  - reflexivity.
  - reflexivity.
  - reflexivity.
  - reflexivity.
  - vm_compute. set_solver.
Defined.

(** X16.  When [playlist.js] cannot be opened for writing, [main] prints
    the error and stops there: it returns normally, [playlist.js] and
    [index.html] are as they were before the run, and the template is
    not copied. *)
Theorem main_without_manifest_copies_no_page (E : env) (Ho : host) (target_dir : string)
    (m : machine) (listing : list string) (content : bytes) (e : exn) :
  let template_path := join (script_dir Ho) "player_template.html" in
  let js_dest_path := join target_dir "playlist.js" in
  let html_dest_path := join target_dir "index.html" in
  fs (disk m) !! template_path = Some content →
  target_dir ∈ dirs m →
  makedirs_err Ho (join target_dir COVERS_DIR) = None →
  listdir Ho target_dir = Val listing →
  open_w_err Ho js_dest_path = Some e →
  ∃ m',
    main E Ho target_dir m = (Val tt, m') ∧
    fs (disk m') !! js_dest_path = fs (disk m) !! js_dest_path ∧
    fs (disk m') !! html_dest_path = fs (disk m) !! html_dest_path ∧
    head (trace (disk m')) = Some (Printed ("エラー (playlist.js): " +:+ exn_str e)).
Proof.
  intros template_path js_dest_path html_dest_path Htpl Hdir Hmk Hls Hjs.
  rewrite main_cases. cbv zeta.
  fold template_path js_dest_path html_dest_path.
  rewrite (bool_decide_eq_true_2 (is_Some (fs (disk m) !! template_path))) by eauto.
  rewrite (bool_decide_eq_true_2 (target_dir ∈ dirs m)) by done.
  cbn [orb negb]. rewrite Hmk, Hls, Hjs.
  assert (∀ b : bool, (if b then (None : option exn) else None) = None) as -> by (by intros []).
  unfold main_playlist_data.
  match goal with |- context [main_loop E ?t ?c ?fl [] ?w] =>
    destruct (main_loop_val E t c fl w) as (pd & w2 & Hrun) end.
  rewrite Hrun. eexists. split; [done|]. cbn [disk fs trace put].
  pose proof (main_loop_writes_only_covers E _ _ _ _ _ _ "playlist.js" Hrun eq_refl
                ltac:(done)) as H1.
  pose proof (main_loop_writes_only_covers E _ _ _ _ _ _ "index.html" Hrun eq_refl
                ltac:(done)) as H2.
  rewrite fs_announced, fs_warned in H1, H2. done.
Qed.

Lemma main_without_manifest_copies_no_page_witness :
  ∃ m',
    main Sample.E SampleHost.host_no_manifest "music" SampleHost.machine0 = (Val tt, m') ∧
    fs (disk m') !! join "music" "playlist.js"
      = fs (disk SampleHost.machine0) !! join "music" "playlist.js" ∧
    fs (disk m') !! join "music" "index.html"
      = fs (disk SampleHost.machine0) !! join "music" "index.html" ∧
    head (trace (disk m'))
      = Some (Printed ("エラー (playlist.js): "
                       +:+ exn_str (OSError "[Errno 13] Permission denied"))).
Proof.
  apply (main_without_manifest_copies_no_page Sample.E SampleHost.host_no_manifest
           "music" SampleHost.machine0
           ["song.m4a"; "notes.txt"; ".hidden.mp3"; "bad.mp3"; "a.mp3"]
           SampleHost.template).
  - reflexivity.
  - vm_compute. set_solver.
  - reflexivity.
  - reflexivity.
  - reflexivity.
Defined.

(** X17.  Whatever happens in a run, [main] stays within its outputs.  A
    file that exists before the run and is not [playlist.js] or
    [index.html] of the target folder keeps its content; nothing is
    removed; a file that is new after the run is [playlist.js],
    [index.html] (or the template copied inside a directory of that
    name), or a cache file directly inside the covers directory; and the
    only directory that may be new is the covers directory. *)
Theorem main_stays_within_its_outputs (E : env) (Ho : host) (target_dir : string)
    (m : machine) :
  let m' := snd (main E Ho target_dir m) in
  let covers_path := join target_dir COVERS_DIR in
  let js_dest_path := join target_dir "playlist.js" in
  let html_dest_path := join target_dir "index.html" in
  let inner := join html_dest_path "player_template.html" in
  (∀ p v, fs (disk m) !! p = Some v →
          p ≠ js_dest_path → p ≠ html_dest_path → p ≠ inner →
          fs (disk m') !! p = Some v) ∧
  (∀ p, is_Some (fs (disk m) !! p) → is_Some (fs (disk m') !! p)) ∧
  (∀ p v, fs (disk m') !! p = Some v → fs (disk m) !! p = None →
          p = js_dest_path ∨ p = html_dest_path ∨ p = inner ∨
          ∃ fn, p = join covers_path fn ∧ String.length fn = 36%nat ∧
                contains "/" fn = false) ∧
  (∀ p, p ∈ dirs m' → p ∈ dirs m ∨ p = covers_path) ∧
  (∀ p, p ∈ dirs m → p ∈ dirs m').
Proof.
  intros m' covers_path js_dest_path html_dest_path inner. subst m'.
  rewrite main_cases. cbv zeta.
  fold covers_path js_dest_path html_dest_path.
  rewrite basename_join by done. fold inner.
  set (create := HAS_MUTAGEN E
                 && negb (bool_decide (is_Some (fs (disk m) !! covers_path))
                          || bool_decide (covers_path ∈ dirs m))).
  set (d1 := if create then {[covers_path]} ∪ dirs m else dirs m).
  assert (∀ p, p ∈ d1 → p ∈ dirs m ∨ p = covers_path) as Hd1.
  { intros p. unfold d1. destruct create; [|by left].
    intros [Hp%elem_of_singleton|Hp]%elem_of_union; auto. }
  assert (∀ p, p ∈ dirs m → p ∈ d1) as Hd1'.
  { intros p. unfold d1. destruct create; [|done].
    intros Hp. apply elem_of_union. by right. }
  set (dst := if bool_decide (html_dest_path ∈ d1) then inner else html_dest_path).
  assert (dst = inner ∨ dst = html_dest_path) as Hdst.
  { unfold dst. case_bool_decide; auto. }
  clearbody dst d1 create.
  destruct (negb (bool_decide (is_Some (fs (disk m) !! _)) || _)).
  { cbn [snd disk dirs fs put]. rewrite fs_warned.
    repeat split; try done; try (intros; congruence); auto. }
  destruct (negb (bool_decide (target_dir ∈ dirs m))).
  { cbn [snd disk dirs fs put]. rewrite fs_warned.
    repeat split; try done; try (intros; congruence); auto. }
  destruct (if create then makedirs_err Ho covers_path else None).
  { cbn [snd disk dirs fs put]. rewrite fs_warned.
    repeat split; try done; try (intros; congruence); auto. }
  destruct (listdir Ho target_dir) as [listing|e].
  2: { cbn [snd disk dirs fs put]. rewrite fs_warned.
       repeat split; try done; try (intros; congruence); auto. }
  unfold main_playlist_data. fold covers_path.
  match goal with |- context [main_loop E ?t ?c ?fl [] ?w] =>
    destruct (main_loop_val E t c fl w) as (pd & w2 & Hrun) end.
  rewrite Hrun.
  pose proof (λ k v, main_loop_keeps_content E _ _ _ _ _ _ k v Hrun) as Hkeep.
  pose proof (λ k v, main_loop_new_names E _ _ _ _ _ _ k v Hrun) as Hnew.
  rewrite fs_announced, fs_warned in Hkeep, Hnew.
  assert (∀ p v, fs w2 !! p = Some v → fs (disk m) !! p = None →
            ∃ fn, p = join covers_path fn ∧ String.length fn = 36%nat ∧
                  contains "/" fn = false) as Hnew'.
  { intros p v Hp Hn. by eapply Hnew. }
  clear Hnew Hrun.
  assert (∀ (F : gmap string bytes),
    (∀ p v, fs (disk m) !! p = Some v → p ≠ js_dest_path → p ≠ html_dest_path →
            p ≠ inner → F !! p = Some v) →
    (∀ p, is_Some (fs (disk m) !! p) → is_Some (F !! p)) →
    (∀ p v, F !! p = Some v → fs (disk m) !! p = None →
            p = js_dest_path ∨ p = html_dest_path ∨ p = inner ∨
            ∃ fn, p = join covers_path fn ∧ String.length fn = 36%nat ∧
                  contains "/" fn = false) →
    ∀ q x, q = js_dest_path ∨ q = html_dest_path ∨ q = inner →
    (∀ p v, fs (disk m) !! p = Some v → p ≠ js_dest_path → p ≠ html_dest_path →
            p ≠ inner → <[q := x]> F !! p = Some v) ∧
    (∀ p, is_Some (fs (disk m) !! p) → is_Some (<[q := x]> F !! p)) ∧
    (∀ p v, <[q := x]> F !! p = Some v → fs (disk m) !! p = None →
            p = js_dest_path ∨ p = html_dest_path ∨ p = inner ∨
            ∃ fn, p = join covers_path fn ∧ String.length fn = 36%nat ∧
                  contains "/" fn = false)) as Hins.
  { intros F H1 H2 H3 q x Hq. split; [|split].
    - intros p v Hp ? ? ?. rewrite lookup_insert_ne; [by apply H1|].
      intros <-. by destruct Hq as [Hq|[Hq|Hq]].
    - intros p Hp. destruct (decide (q = p)) as [->|?].
      + rewrite lookup_insert_eq. eauto.
      + rewrite lookup_insert_ne by done. by apply H2.
    - intros p v Hp Hn. destruct (decide (q = p)) as [<-|?];
        [destruct Hq as [Hq|[Hq|Hq]]; auto|].
      rewrite lookup_insert_ne in Hp by done. by eapply H3. }
  assert ((∀ p v, fs (disk m) !! p = Some v → p ≠ js_dest_path → p ≠ html_dest_path →
            p ≠ inner → fs w2 !! p = Some v) ∧
          (∀ p, is_Some (fs (disk m) !! p) → is_Some (fs w2 !! p)) ∧
          (∀ p v, fs w2 !! p = Some v → fs (disk m) !! p = None →
            p = js_dest_path ∨ p = html_dest_path ∨ p = inner ∨
            ∃ fn, p = join covers_path fn ∧ String.length fn = 36%nat ∧
                  contains "/" fn = false)) as (H1 & H2 & H3).
  { split; [|split].
    - intros p v Hp _ _ _. by apply Hkeep.
    - intros p [v Hp]. exists v. by apply Hkeep.
    - intros p v Hp Hn. right; right; right. by eapply Hnew'. }
  destruct (open_w_err Ho js_dest_path).
  { cbn [snd disk dirs fs put]. repeat split; try done; try (intros; congruence); auto. }
  destruct (Hins _ H1 H2 H3 js_dest_path (encode_utf8 (js_content pd))) as (J1 & J2 & J3);
    [by left|].
  destruct (copy2_err Ho _ html_dest_path).
  { cbn [snd disk dirs fs put]. repeat split; try done; try (intros; congruence); auto. }
  cbn [fs].
  destruct (<[js_dest_path:=_]> (fs w2) !! _) as [content|].
  2: { cbn [snd disk dirs fs put]. repeat split; try done; try (intros; congruence); auto. }
  cbn [snd disk dirs fs put].
  destruct (Hins _ J1 J2 J3 dst content) as (K1 & K2 & K3);
    [destruct Hdst as [Hd|Hd]; auto|].
  repeat split; try done; try (intros; congruence); auto.
Qed.

(** X18.  The whole program without mutagen: the three warning lines
    come first, no covers directory is created, and when nothing else
    fails [playlist.js] lists every scanned file with [cover] null; the
    only files written are [playlist.js] and [index.html]. *)
Theorem main_without_mutagen (E : env) (Ho : host) (target_dir : string)
    (m : machine) (listing : list string) (content : bytes) :
  let template_path := join (script_dir Ho) "player_template.html" in
  let js_dest_path := join target_dir "playlist.js" in
  let html_dest_path := join target_dir "index.html" in
  let text := encode_utf8 (js_content (map (λ f, Entry f f None) (scan listing))) in
  HAS_MUTAGEN E = false →
  fs (disk m) !! template_path = Some content →
  target_dir ∈ dirs m →
  listdir Ho target_dir = Val listing →
  open_w_err Ho js_dest_path = None →
  copy2_err Ho template_path html_dest_path = None →
  html_dest_path ∉ dirs m →
  ∃ m',
    main E Ho target_dir m = (Val tt, m') ∧
    dirs m' = dirs m ∧
    fs (disk m') = <[html_dest_path := content]> (<[js_dest_path := text]> (fs (disk m))) ∧
    writes (trace (disk m'))
      = (html_dest_path, content) :: (js_dest_path, text) :: writes (trace (disk m)) ∧
    ∃ later,
      trace (disk m')
        = later ++ [Printed "※ 画像なしモードで続行します...";
                    Printed "画像を抽出するには 'pip install mutagen' を実行してください。";
                    Printed "警告: 'mutagen' ライブラリが見つかりません。"]
                ++ trace (disk m).
Proof.
  intros template_path js_dest_path html_dest_path text Hm Htpl Hdir Hls Hjs Hcp Hhtml.
  rewrite main_cases. cbv zeta.
  fold template_path js_dest_path html_dest_path.
  rewrite (bool_decide_eq_true_2 (is_Some (fs (disk m) !! template_path))) by eauto.
  rewrite (bool_decide_eq_true_2 (target_dir ∈ dirs m)) by done.
  rewrite Hm. cbn [orb negb andb]. rewrite Hls, Hjs, Hcp.
  unfold main_playlist_data. rewrite main_loop_no_mutagen by done.
  assert (js_dest_path ≠ template_path) as Hne1 by (by apply join_ne).
  unfold announced, warned. rewrite Hm. cbn [negb fs put trace].
  rewrite lookup_insert_ne, Htpl by done.
  rewrite bool_decide_eq_false_2 by done.
  eexists. split; [done|]. cbn [disk dirs fs trace put].
  repeat split.
  eexists [_; _; _; _; _]. reflexivity.
Qed.

Lemma main_without_mutagen_witness :
  ∃ m',
    main (Env false Sample.library (λ _, None)) SampleHost.host0 "music"
         SampleHost.machine0 = (Val tt, m') ∧
    dirs m' = dirs SampleHost.machine0 ∧
    fs (disk m')
      = <[join "music" "index.html" := SampleHost.template]>
          (<[join "music" "playlist.js" :=
               encode_utf8 (js_content (map (λ f, Entry f f None)
                 (scan ["song.m4a"; "notes.txt"; ".hidden.mp3"; "bad.mp3"; "a.mp3"])))]>
             (fs (disk SampleHost.machine0))) ∧
    writes (trace (disk m'))
      = (join "music" "index.html", SampleHost.template)
        :: (join "music" "playlist.js",
            encode_utf8 (js_content (map (λ f, Entry f f None)
              (scan ["song.m4a"; "notes.txt"; ".hidden.mp3"; "bad.mp3"; "a.mp3"]))))
        :: writes (trace (disk SampleHost.machine0)) ∧
    ∃ later,
      trace (disk m')
        = later ++ [Printed "※ 画像なしモードで続行します...";
                    Printed "画像を抽出するには 'pip install mutagen' を実行してください。";
                    Printed "警告: 'mutagen' ライブラリが見つかりません。"]
                ++ trace (disk SampleHost.machine0).
Proof.
  apply (main_without_mutagen (Env false Sample.library (λ _, None)) SampleHost.host0
           "music" SampleHost.machine0).
  - reflexivity.
  - reflexivity.
  - vm_compute. set_solver.
  - reflexivity.
  - reflexivity.
  - reflexivity.
  - vm_compute. set_solver.
Defined.
